(** * Travel Spending: the transaction store, the currency converter, the
      aggregator and the CSV adapter

    The development embeds the handlers of the two variants of the
    application: the local one (kept in the browser's storage) and the synced
    one (mirrored to a remote document collection).

    Numbers.  A JavaScript Number is modelled as an exact rational or NaN:
    rounding to binary64, overflow to the infinities and the sign of zero are
    left out, so every statement about arithmetic is one of exact rational
    arithmetic.  Strings are sequences of 8-bit characters. *)

From Stdlib Require Import Ascii String QArith Qcanon Qround.
From stdpp Require Import numbers strings gmap sorting list.

Local Open Scope Z_scope.

(** ** The language's values and built-in operations *)

Module JS.

Inductive number : Type :=
  | Num (q : Qc)
  | NaN.

#[global] Instance number_eq_dec : EqDecision number.
Proof. solve_decision. Defined.

Definition Qc_of_Z (z : Z) : Qc := Q2Qc (inject_Z z).

Definition num_of_Z (z : Z) : number := Num (Qc_of_Z z).

(** [a + b] on Numbers. *)
Definition num_add (a b : number) : number :=
  match a, b with
  | Num x, Num y => Num (x + y)%Qc
  | _, _ => NaN
  end.

(** [a * b] on Numbers. *)
Definition num_mul (a b : number) : number :=
  match a, b with
  | Num x, Num y => Num (x * y)%Qc
  | _, _ => NaN
  end.

(** [a / b] on Numbers.  The language yields an infinity (or NaN for 0/0)
    when the divisor is zero; the model has no infinities and yields NaN
    there.  No handler of the application divides by zero (see
    [convert_divisor_nonzero] and the guard of [avgTransaction]). *)
Definition num_div (a b : number) : number :=
  match a, b with
  | Num x, Num y => if decide (y = 0%Qc) then NaN else Num (x / y)%Qc
  | _, _ => NaN
  end.

(** ToBoolean on Numbers: 0 and NaN are falsy. *)
Definition truthy_num (a : number) : bool :=
  match a with
  | Num q => negb (bool_decide (q = 0%Qc))
  | NaN => false
  end.

(** ToBoolean on strings: only the empty string is falsy. *)
Definition truthy_str (s : string) : bool :=
  match s with
  | EmptyString => false
  | String _ _ => true
  end.

(** ToBoolean on a property that may be [undefined] ([None]). *)
Definition truthy_prop (v : option string) : bool :=
  match v with
  | Some s => truthy_str s
  | None => false
  end.

(** [a || b] on Numbers, on strings, and on a possibly undefined property
    with a string default. *)
Definition or_num (a b : number) : number := if truthy_num a then a else b.

Definition or_str (a b : string) : string := if truthy_str a then a else b.

Definition or_prop (v : option string) (b : string) : string :=
  match v with
  | Some s => or_str s b
  | None => b
  end.

(** ToString on a possibly undefined property. *)
Definition ToString_prop (v : option string) : string :=
  match v with
  | Some s => s
  | None => "undefined"
  end.

(** *** Decimal digits *)

Definition digit_char (d : Z) : ascii := ascii_of_nat (48 + Z.to_nat d).

Definition digit_val (c : ascii) : option Z :=
  let n := Z.of_nat (nat_of_ascii c) in
  if (48 <=? n) && (n <=? 57) then Some (n - 48) else None.

Definition string_of_digits (ds : list Z) : string :=
  fold_right (fun d s => String (digit_char d) s) EmptyString ds.

(** The longest run of decimal digits at the start of [s], and what follows. *)
Fixpoint read_digits (s : string) : list Z * string :=
  match s with
  | EmptyString => ([], EmptyString)
  | String c s' =>
      match digit_val c with
      | Some d => let '(ds, r) := read_digits s' in (d :: ds, r)
      | None => ([], s)
      end
  end.

Definition Z_of_digits (ds : list Z) : Z :=
  fold_left (fun a d => 10 * a + d) ds 0.

Fixpoint digits_aux (fuel : nat) (n : Z) (acc : list Z) : list Z :=
  match fuel with
  | O => acc
  | S f => if n <? 10 then n :: acc else digits_aux f (n / 10) (n mod 10 :: acc)
  end.

(** The decimal digits of [n >= 0], most significant first; [0] is [[0]]. *)
Definition digits_of_Z (n : Z) : list Z :=
  digits_aux (S (Z.to_nat (Z.log2 n))) n [].

(** [10 ^ e] for an integer [e] of either sign. *)
Definition pow10 (e : Z) : Qc :=
  if 0 <=? e then Qc_of_Z (10 ^ e) else (/ Qc_of_Z (10 ^ (- e)))%Qc.

(** *** parseFloat *)

Definition is_space (c : ascii) : bool :=
  let n := nat_of_ascii c in
  bool_decide (n = 32 \/ n = 9 \/ n = 10 \/ n = 11 \/ n = 12 \/ n = 13)%nat.

Fixpoint trim_start (s : string) : string :=
  match s with
  | EmptyString => EmptyString
  | String c s' => if is_space c then trim_start s' else s
  end.

(** ExponentPart, when the text starts with a complete one; otherwise the
    exponent is 0 (the longest valid prefix ends before it). *)
Definition parse_exponent (s : string) : Z :=
  match s with
  | String c body =>
      if bool_decide (c = "e"%char \/ c = "E"%char) then
        let '(sgn, t) :=
          match body with
          | String "+"%char t => (1, t)
          | String "-"%char t => (-1, t)
          | _ => (1, body)
          end in
        match fst (read_digits t) with
        | [] => 0
        | ds => sgn * Z_of_digits ds
        end
      else 0
  | EmptyString => 0
  end.

(** The value of the longest prefix that is a StrUnsignedDecimalLiteral
    ([digits], [digits.], [digits.digits], [.digits], each with an optional
    exponent), or [None] when there is none.  The literal [Infinity] has no
    value in the model and is not recognised. *)
Definition parse_unsigned (s : string) : option Qc :=
  let '(ip, r) := read_digits s in
  match r with
  | String "."%char r' =>
      let '(fp, r'') := read_digits r' in
      match ip, fp with
      | [], [] => None
      | _, _ =>
          Some (Qc_of_Z (Z_of_digits (ip ++ fp))
                * pow10 (parse_exponent r'' - Z.of_nat (length fp)))%Qc
      end
  | _ =>
      match ip with
      | [] => None
      | _ => Some (Qc_of_Z (Z_of_digits ip) * pow10 (parse_exponent r))%Qc
      end
  end.

Definition num_of_option (o : option Qc) : number :=
  match o with
  | Some q => Num q
  | None => NaN
  end.

Definition parseFloat (s : string) : number :=
  match trim_start s with
  | EmptyString => NaN
  | String c u =>
      if bool_decide (c = "-"%char) then num_of_option (Qcopp <$> parse_unsigned u)
      else if bool_decide (c = "+"%char) then num_of_option (parse_unsigned u)
      else num_of_option (parse_unsigned (String c u))
  end.

(** *** Number::toString and Number.prototype.toFixed *)

Fixpoint drop_zeros (ds : list Z) : list Z :=
  match ds with
  | 0 :: ds' => drop_zeros ds'
  | _ => ds
  end.

Definition strip_trailing_zeros (ds : list Z) : list Z :=
  reverse (drop_zeros (reverse ds)).

(** [q] has a finite decimal expansion. *)
Definition terminating (q : Qc) : bool :=
  let d := Zpos (Qden q) in
  (10 ^ Z.log2 d) mod d =? 0.

(** The nearest integer, ties upwards. *)
Definition round_half_up (q : Qc) : Z := Qfloor (q + Q2Qc (1 # 2))%Qc.

(** The number [n] of digits before the decimal point of [q > 0]
    ([10^(n-1) <= q < 10^n]; not positive when [q < 1]). *)
Definition int_digits (q : Qc) : Z :=
  let n0 := Z.of_nat (length (digits_of_Z (Qnum q)))
            - Z.of_nat (length (digits_of_Z (Zpos (Qden q)))) in
  if bool_decide (pow10 n0 <= q)%Qc then n0 + 1 else n0.

(** The power of ten by which [q > 0] is scaled to read off its digits: one
    that makes [q] an integer when [q] has a finite expansion, and otherwise
    the one that keeps 17 significant digits, the most the language prints. *)
Definition decimal_scale (q : Qc) : Z :=
  if terminating q then Z.log2 (Zpos (Qden q)) else 17 - int_digits q.

(** The significant digits of [q > 0] without trailing zeros, and the
    position [n] of the decimal point: [q] is [0.d1...dk * 10^n]. *)
Definition sig_digits (q : Qc) : list Z * Z :=
  let E := decimal_scale q in
  let ds := digits_of_Z (round_half_up (q * pow10 E)) in
  (strip_trailing_zeros ds, Z.of_nat (length ds) - E).

Definition zeros (n : Z) : list Z := replicate (Z.to_nat n) 0.

Definition format_pos (ds : list Z) (n : Z) : string :=
  let k := Z.of_nat (length ds) in
  if (k <=? n) && (n <=? 21) then
    string_of_digits (ds ++ zeros (n - k))
  else if (0 <? n) && (n <=? 21) then
    string_of_digits (take (Z.to_nat n) ds) +:+ "." +:+
    string_of_digits (drop (Z.to_nat n) ds)
  else if (-6 <? n) && (n <=? 0) then
    "0." +:+ string_of_digits (zeros (- n) ++ ds)
  else
    let e := n - 1 in
    let es := (if 0 <=? e then "e+" else "e-") +:+
              string_of_digits (digits_of_Z (Z.abs e)) in
    match ds with
    | [] => "0"
    | [d] => string_of_digits [d] +:+ es
    | d :: ds' => string_of_digits [d] +:+ "." +:+ string_of_digits ds' +:+ es
    end.

(** Number::toString (radix 10), the text of [String(x)] and [x.toString()]. *)
Definition number_toString (x : number) : string :=
  match x with
  | NaN => "NaN"
  | Num q =>
      if bool_decide (q = 0%Qc) then "0"
      else if bool_decide (q < 0)%Qc then
        let '(ds, n) := sig_digits (- q)%Qc in "-" +:+ format_pos ds n
      else
        let '(ds, n) := sig_digits q in format_pos ds n
  end.

(** [x.toFixed(2)]. *)
Definition toFixed2 (x : number) : string :=
  match x with
  | NaN => "NaN"
  | Num q =>
      let neg := bool_decide (q < 0)%Qc in
      let a := if neg then (- q)%Qc else q in
      let m :=
        if bool_decide (pow10 21 <= a)%Qc then number_toString (Num a)
        else
          let ds := digits_of_Z (round_half_up (a * pow10 2)) in
          let ds' := zeros (3 - Z.of_nat (length ds)) ++ ds in
          let k := length ds' in
          string_of_digits (take (k - 2)%nat ds') +:+ "." +:+
          string_of_digits (drop (k - 2)%nat ds') in
      if neg then "-" +:+ m else m
  end.

(** [a > b] on Numbers: false when either is NaN. *)
Definition num_gt (a b : number) : bool :=
  match a, b with
  | Num x, Num y => bool_decide (y < x)%Qc
  | _, _ => false
  end.

(** [a - b] on Numbers. *)
Definition num_sub (a b : number) : number :=
  match a, b with
  | Num x, Num y => Num (x - y)%Qc
  | _, _ => NaN
  end.

(** *** Array.prototype.sort *)

(** [x] is put before the first element that the comparator does not place
    before it, so that elements that compare equal keep their order. *)
Fixpoint sort_insert {A : Type} (cmp : A -> A -> number) (x : A) (l : list A) : list A :=
  match l with
  | [] => [x]
  | y :: l' =>
      match cmp x y with
      | Num v => if bool_decide (v <= 0)%Qc then x :: l else y :: sort_insert cmp x l'
      | NaN => x :: l
      end
  end.

(** [l.sort(cmp)] for a comparator that yields a Number on every two elements
    of [l] and orders them consistently: the stable sort.  When the
    comparator yields NaN on some pair the model gives no result: it is then
    in general not a consistent order, and the language leaves the outcome
    to the engine. *)
Definition Array_sort {A : Type} (cmp : A -> A -> number) (l : list A) : option (list A) :=
  if forallb (fun x => forallb (fun y => bool_decide (cmp x y <> NaN)) l) l
  then Some (foldr (sort_insert cmp) [] l)
  else None.

End JS.

Import JS.

(** ** What the two variants share *)

(** [exchangeRates[c] || 1]: a rate that is absent, zero or NaN gives 1. *)
Definition rate_or_1 (rates : gmap string number) (c : string) : number :=
  match rates !! c with
  | Some r => or_num r (num_of_Z 1)
  | None => num_of_Z 1
  end.

(** [s.split('T')[0]]: the text before the first [T]. *)
Fixpoint before_T (s : string) : string :=
  match s with
  | EmptyString => EmptyString
  | String c s' => if bool_decide (c = "T"%char) then EmptyString else String c (before_T s')
  end.

(** ** The local variant (state kept in the browser's storage) *)

Module Local.

Record Transaction : Type := {
  id : string;
  date : string;
  name : string;
  price : number;
  currency : string;
  priceInMain : number;
  category : string;
  paymentMethod : string;
  createdAt : string
}.

#[global] Instance Transaction_eq_dec : EqDecision Transaction.
Proof. solve_decision. Defined.

Record FormData : Type := {
  fd_date : string;
  fd_name : string;
  fd_price : string;
  fd_currency : string;
  fd_category : string;
  fd_paymentMethod : string
}.

#[global] Instance FormData_eq_dec : EqDecision FormData.
Proof. solve_decision. Defined.

(** The component's state, with the alerts shown so far (oldest first). *)
Record State : Type := {
  transactions : list Transaction;
  mainCurrency : string;
  exchangeRates : gmap string number;
  showAddForm : bool;
  editingTransaction : option Transaction;
  formData : FormData;
  alerts : list string
}.

(** What a handler reads from its environment: the text of
    [Date.now().toString()], the text of [new Date().toISOString()], and the
    text of [Date.now().toString() + Math.random()] at the i-th accepted row
    of an import. *)
Record Env : Type := {
  date_now : string;
  iso_now : string;
  import_id : nat -> string
}.

(** [useState] initial value of the rate table. *)
Definition initial_rates : gmap string number :=
  {[ "EUR" := num_of_Z 1;
     "USD" := Num (Q2Qc (11 # 10));
     "GBP" := Num (Q2Qc (86 # 100));
     "JPY" := num_of_Z 150 ]}.

Definition convertToMainCurrency (st : State) (amount : number) (currency : string) : number :=
  let rate := rate_or_1 (exchangeRates st) currency in
  let mainRate := rate_or_1 (exchangeRates st) (mainCurrency st) in
  num_mul (num_div amount rate) mainRate.

Definition resetForm (env : Env) (st : State) : State :=
  {| transactions := transactions st;
     mainCurrency := mainCurrency st;
     exchangeRates := exchangeRates st;
     showAddForm := false;
     editingTransaction := None;
     formData := {| fd_date := before_T (iso_now env);
                    fd_name := "";
                    fd_price := "";
                    fd_currency := mainCurrency st;
                    fd_category := "";
                    fd_paymentMethod := "" |};
     alerts := alerts st |}.

Definition set_transactions (ts : list Transaction) (st : State) : State :=
  {| transactions := ts;
     mainCurrency := mainCurrency st;
     exchangeRates := exchangeRates st;
     showAddForm := showAddForm st;
     editingTransaction := editingTransaction st;
     formData := formData st;
     alerts := alerts st |}.

Definition alert (msg : string) (st : State) : State :=
  {| transactions := transactions st;
     mainCurrency := mainCurrency st;
     exchangeRates := exchangeRates st;
     showAddForm := showAddForm st;
     editingTransaction := editingTransaction st;
     formData := formData st;
     alerts := alerts st ++ [msg] |}.

Definition setMainCurrency (c : string) (st : State) : State :=
  {| transactions := transactions st;
     mainCurrency := c;
     exchangeRates := exchangeRates st;
     showAddForm := showAddForm st;
     editingTransaction := editingTransaction st;
     formData := formData st;
     alerts := alerts st |}.

(** The record built by a submit from the form and the edit target. *)
Definition newTransaction (env : Env) (st : State) : Transaction :=
  let fd := formData st in
  {| id := match editingTransaction st with
           | Some e => or_str (id e) (date_now env)
           | None => date_now env
           end;
     date := fd_date fd;
     name := fd_name fd;
     price := parseFloat (fd_price fd);
     currency := fd_currency fd;
     category := fd_category fd;
     paymentMethod := fd_paymentMethod fd;
     priceInMain := convertToMainCurrency st (parseFloat (fd_price fd)) (fd_currency fd);
     createdAt := match editingTransaction st with
                  | Some e => or_str (createdAt e) (iso_now env)
                  | None => iso_now env
                  end |}.

Definition handleAddTransaction (env : Env) (st : State) : State :=
  if negb (truthy_str (fd_name (formData st))) || negb (truthy_str (fd_price (formData st)))
  then alert "Please fill in name and price" st
  else
    let nt := newTransaction env st in
    resetForm env
      (set_transactions
         match editingTransaction st with
         | Some e =>
             map (fun t => if bool_decide (id t = id e) then nt else t) (transactions st)
         | None => transactions st ++ [nt]
         end st).

Definition handleEdit (transaction : Transaction) (st : State) : State :=
  {| transactions := transactions st;
     mainCurrency := mainCurrency st;
     exchangeRates := exchangeRates st;
     showAddForm := true;
     editingTransaction := Some transaction;
     formData := {| fd_date := date transaction;
                    fd_name := name transaction;
                    fd_price := number_toString (price transaction);
                    fd_currency := currency transaction;
                    fd_category := or_str (category transaction) "";
                    fd_paymentMethod := or_str (paymentMethod transaction) "" |};
     alerts := alerts st |}.

(** The name field's [onChange]: [setFormData({ ...formData, name })]. *)
Definition change_name (s : string) (st : State) : State :=
  {| transactions := transactions st;
     mainCurrency := mainCurrency st;
     exchangeRates := exchangeRates st;
     showAddForm := showAddForm st;
     editingTransaction := editingTransaction st;
     formData := {| fd_date := fd_date (formData st);
                    fd_name := s;
                    fd_price := fd_price (formData st);
                    fd_currency := fd_currency (formData st);
                    fd_category := fd_category (formData st);
                    fd_paymentMethod := fd_paymentMethod (formData st) |};
     alerts := alerts st |}.

(** [confirmed] is the answer to the confirmation dialog. *)
Definition handleDelete (confirmed : bool) (i : string) (st : State) : State :=
  if confirmed
  then set_transactions (filter (fun t => id t <> i) (transactions st)) st
  else st.

(** The row objects handed to the CSV writer. *)
Record ExportRow : Type := {
  Date : string;
  Name : string;
  Price : number;
  Currency : string;
  Price_in_Main : string;
  Main_Currency : string;
  Category : string;
  Payment_Method : string
}.

Definition exportToCSV (st : State) : list ExportRow :=
  map (fun t =>
         {| Date := date t;
            Name := name t;
            Price := price t;
            Currency := currency t;
            Price_in_Main := toFixed2 (priceInMain t);
            Main_Currency := mainCurrency st;
            Category := category t;
            Payment_Method := paymentMethod t |})
      (transactions st).

(** A parsed CSV row: the object from header name to cell text. *)
Definition csv_row (r : ExportRow) : gmap string string :=
  {[ "Date" := Date r;
     "Name" := Name r;
     "Price" := number_toString (Price r);
     "Currency" := Currency r;
     "Price in Main" := Price_in_Main r;
     "Main Currency" := Main_Currency r;
     "Category" := Category r;
     "Payment Method" := Payment_Method r ]}.

(** What the CSV reader (with a header row) returns on the text the CSV
    writer makes of [rows]: every cell is the text of its value, and texts
    survive the writer's quoting. *)
Definition csv_written_then_parsed (rows : list ExportRow) : list (gmap string string) :=
  map csv_row rows.

(** [row.Date && row.Name && row.Price]. *)
Definition row_accepted (row : gmap string string) : bool :=
  truthy_prop (row !! "Date") && truthy_prop (row !! "Name") && truthy_prop (row !! "Price").

(** The record made of an accepted row (its Date, Name and Price cells are
    present), the i-th of the accepted ones. *)
Definition row_to_transaction (env : Env) (st : State) (i : nat) (row : gmap string string)
  : Transaction :=
  {| id := import_id env i;
     date := ToString_prop (row !! "Date");
     name := ToString_prop (row !! "Name");
     price := parseFloat (ToString_prop (row !! "Price"));
     currency := or_prop (row !! "Currency") (mainCurrency st);
     priceInMain := or_num (parseFloat (ToString_prop (row !! "Price in Main")))
                           (parseFloat (ToString_prop (row !! "Price")));
     category := or_prop (row !! "Category") "";
     paymentMethod := or_prop (row !! "Payment Method") "";
     createdAt := iso_now env |}.

Definition imported (env : Env) (st : State) (data : list (gmap string string))
  : list Transaction :=
  imap (row_to_transaction env st) (filter (fun row => row_accepted row = true) data).

(** [data] is the reader's result for the chosen file; [None] when no file
    was chosen. *)
Definition importFromCSV (env : Env) (data : option (list (gmap string string))) (st : State)
  : State :=
  match data with
  | None => st
  | Some rows =>
      let imp := imported env st rows in
      alert ("Imported " +:+ number_toString (num_of_Z (Z.of_nat (length imp))) +:+ " transactions")
        (set_transactions (transactions st ++ imp) st)
  end.

Definition totalSpent (st : State) : number :=
  fold_left (fun sum t => num_add sum (priceInMain t)) (transactions st) (num_of_Z 0).

Definition avgTransaction (st : State) : number :=
  if (0 <? length (transactions st))%nat
  then num_div (totalSpent st) (num_of_Z (Z.of_nat (length (transactions st))))
  else num_of_Z 0.

(** One step of the reducer of [spendingByCurrency]: the first entry with the
    record's currency is updated in place, or a new entry is pushed. *)
Definition by_currency_step (acc : list (string * number)) (t : Transaction)
  : list (string * number) :=
  match list_find (fun a => fst a = currency t) acc with
  | Some (i, existing) => <[ i := (fst existing, num_add (snd existing) (price t)) ]> acc
  | None => acc ++ [(currency t, price t)]
  end.

Definition spendingByCurrency (st : State) : list (string * number) :=
  fold_left by_currency_step (transactions st) [].

Definition DEFAULT_CATEGORIES : list string :=
  ["Food"; "Transport"; "Accommodation"; "Entertainment"; "Shopping"; "Other"].

(** [useState(DEFAULT_CATEGORIES)], which has no setter. *)
Definition categories : list string := DEFAULT_CATEGORIES.

Definition spendingByCategory (st : State) : list (string * number) :=
  filter (fun c => num_gt (snd c) (num_of_Z 0) = true)
    (map (fun cat =>
            (cat,
             fold_left (fun sum t => num_add sum (priceInMain t))
               (filter (fun t => category t = cat) (transactions st)) (num_of_Z 0)))
         categories).



(** The order in which the transactions view lists the records: a sorted
    copy, latest date first. *)
Definition transactions_by_date (getTime : string -> number) (st : State)
  : option (list Transaction) :=
  Array_sort (fun a b => num_sub (getTime (date b)) (getTime (date a))) (transactions st).

End Local.

(** ** The synced variant (state mirrored to a remote collection) *)

Module Synced.

Record Transaction : Type := {
  id : string;
  date : string;
  name : string;
  price : number;
  currency : string;
  priceInMain : number;
  category : string;
  paymentMethod : string;
  createdAt : string;
  userId : option string
}.

Record FormData : Type := {
  fd_date : string;
  fd_name : string;
  fd_price : string;
  fd_currency : string;
  fd_category : string;
  fd_paymentMethod : string
}.

(** A document of the remote collection.  [d_createdAt] is the ISO text of
    the document's timestamp. *)
Record Doc : Type := {
  d_date : string;
  d_name : string;
  d_price : number;
  d_currency : string;
  d_category : string;
  d_paymentMethod : string;
  d_priceInMain : number;
  d_userId : string;
  d_createdAt : string
}.

Record State : Type := {
  user : option string;
  transactions : list Transaction;
  mainCurrency : string;
  exchangeRates : gmap string number;
  showAddForm : bool;
  editingTransaction : option Transaction;
  formData : FormData;
  alerts : list string
}.

(** The remote collection (document id to document) and the client. *)
Record World : Type := {
  remote : gmap string Doc;
  app : State
}.

(** What a handler reads from its environment: the ISO text of the time the
    server assigns to [serverTimestamp()] and the id it gives to an added
    document, for a submit and for the i-th accepted row of an import, and
    the text of [new Date().toISOString()]. *)
Record Env : Type := {
  server_time : string;
  new_doc_id : string;
  import_time : nat -> string;
  import_doc_id : nat -> string;
  iso_now : string
}.

Definition initial_rates : gmap string number :=
  {[ "EUR" := num_of_Z 1;
     "USD" := Num (Q2Qc (11 # 10));
     "GBP" := Num (Q2Qc (86 # 100));
     "JPY" := num_of_Z 150;
     "VND" := num_of_Z 27000 ]}.

Definition convertToMainCurrency (st : State) (amount : number) (currency : string) : number :=
  let rate := rate_or_1 (exchangeRates st) currency in
  let mainRate := rate_or_1 (exchangeRates st) (mainCurrency st) in
  num_mul (num_div amount rate) mainRate.

(** [updateDoc]: overwrites the given fields of an existing document and
    fails when there is none.  The handler gives every field of [Doc]. *)
Definition updateDoc (i : string) (data : Doc) (db : gmap string Doc) : option (gmap string Doc) :=
  match db !! i with
  | Some _ => Some (<[ i := data ]> db)
  | None => None
  end.

(** [addDoc]: a new document under the id chosen by the server. *)
Definition addDoc (i : string) (data : Doc) (db : gmap string Doc) : gmap string Doc :=
  <[ i := data ]> db.

(** The snapshot listener: the documents of the signed-in user, as
    transactions, in the order the snapshot lists them. *)
Definition snapshot (uid : string) (db : gmap string Doc) : list Transaction :=
  omap (fun '(i, d) =>
          if bool_decide (d_userId d = uid) then
            Some {| id := i;
                    date := d_date d;
                    name := d_name d;
                    price := d_price d;
                    currency := d_currency d;
                    priceInMain := d_priceInMain d;
                    category := or_str (d_category d) "";
                    paymentMethod := or_str (d_paymentMethod d) "";
                    createdAt := d_createdAt d;
                    userId := Some (d_userId d) |}
          else None)
       (map_to_list db).

Definition set_transactions (ts : list Transaction) (st : State) : State :=
  {| user := user st;
     transactions := ts;
     mainCurrency := mainCurrency st;
     exchangeRates := exchangeRates st;
     showAddForm := showAddForm st;
     editingTransaction := editingTransaction st;
     formData := formData st;
     alerts := alerts st |}.

Definition onSnapshot (w : World) : World :=
  {| remote := remote w;
     app := set_transactions
              match user (app w) with
              | Some uid => snapshot uid (remote w)
              | None => []
              end (app w) |}.

Definition alert (msg : string) (st : State) : State :=
  {| user := user st;
     transactions := transactions st;
     mainCurrency := mainCurrency st;
     exchangeRates := exchangeRates st;
     showAddForm := showAddForm st;
     editingTransaction := editingTransaction st;
     formData := formData st;
     alerts := alerts st ++ [msg] |}.

Definition resetForm (env : Env) (st : State) : State :=
  {| user := user st;
     transactions := transactions st;
     mainCurrency := mainCurrency st;
     exchangeRates := exchangeRates st;
     showAddForm := false;
     editingTransaction := None;
     formData := {| fd_date := before_T (iso_now env);
                    fd_name := "";
                    fd_price := "";
                    fd_currency := mainCurrency st;
                    fd_category := "";
                    fd_paymentMethod := "" |};
     alerts := alerts st |}.

(** The fields written by a submit; [createdAt] is the server's time of the
    write, on an update as on an add. *)
Definition transactionData (env : Env) (uid : string) (st : State) : Doc :=
  let fd := formData st in
  {| d_date := fd_date fd;
     d_name := fd_name fd;
     d_price := parseFloat (fd_price fd);
     d_currency := fd_currency fd;
     d_category := fd_category fd;
     d_paymentMethod := fd_paymentMethod fd;
     d_priceInMain := convertToMainCurrency st (parseFloat (fd_price fd)) (fd_currency fd);
     d_userId := uid;
     d_createdAt := server_time env |}.

Definition handleAddTransaction (env : Env) (w : World) : World :=
  let st := app w in
  match user st with
  | Some uid =>
      if negb (truthy_str (fd_name (formData st))) || negb (truthy_str (fd_price (formData st)))
      then {| remote := remote w; app := alert "Please fill in name and price" st |}
      else
        let data := transactionData env uid st in
        match editingTransaction st with
        | Some e =>
            match updateDoc (id e) data (remote w) with
            | Some db => {| remote := db; app := resetForm env st |}
            | None =>
                {| remote := remote w;
                   app := alert "Error saving transaction. Please try again." st |}
            end
        | None => {| remote := addDoc (new_doc_id env) data (remote w); app := resetForm env st |}
        end
  | None => {| remote := remote w; app := alert "Please fill in name and price" st |}
  end.

Definition row_accepted (row : gmap string string) : bool :=
  truthy_prop (row !! "Date") && truthy_prop (row !! "Name") && truthy_prop (row !! "Price").

(** The document added for an accepted row. *)
Definition row_to_doc (env : Env) (uid : string) (st : State) (i : nat)
    (row : gmap string string) : Doc :=
  {| d_date := ToString_prop (row !! "Date");
     d_name := ToString_prop (row !! "Name");
     d_price := parseFloat (ToString_prop (row !! "Price"));
     d_currency := or_prop (row !! "Currency") (mainCurrency st);
     d_priceInMain := or_num (parseFloat (ToString_prop (row !! "Price in Main")))
                             (parseFloat (ToString_prop (row !! "Price")));
     d_category := or_prop (row !! "Category") "";
     d_paymentMethod := or_prop (row !! "Payment Method") "";
     d_userId := uid;
     d_createdAt := import_time env i |}.

(** [data] is the reader's result for the chosen file; [None] when no file
    was chosen.  One document is added per accepted row, in order. *)
Definition importFromCSV (env : Env) (data : option (list (gmap string string))) (w : World)
  : World :=
  match data, user (app w) with
  | Some rows, Some uid =>
      {| remote :=
           fold_left (fun db '(i, d) => addDoc i d db)
             (imap (fun i row => (import_doc_id env i, row_to_doc env uid (app w) i row))
                   (filter (fun row => row_accepted row = true) rows))
             (remote w);
         app := alert "Imported transactions successfully!" (app w) |}
  | _, _ => w
  end.

Definition handleEdit (transaction : Transaction) (st : State) : State :=
  {| user := user st;
     transactions := transactions st;
     mainCurrency := mainCurrency st;
     exchangeRates := exchangeRates st;
     showAddForm := true;
     editingTransaction := Some transaction;
     formData := {| fd_date := date transaction;
                    fd_name := name transaction;
                    fd_price := number_toString (price transaction);
                    fd_currency := currency transaction;
                    fd_category := or_str (category transaction) "";
                    fd_paymentMethod := or_str (paymentMethod transaction) "" |};
     alerts := alerts st |}.

(** The name field's [onChange]: [setFormData({ ...formData, name })]. *)
Definition change_name (s : string) (st : State) : State :=
  {| user := user st;
     transactions := transactions st;
     mainCurrency := mainCurrency st;
     exchangeRates := exchangeRates st;
     showAddForm := showAddForm st;
     editingTransaction := editingTransaction st;
     formData := {| fd_date := fd_date (formData st);
                    fd_name := s;
                    fd_price := fd_price (formData st);
                    fd_currency := fd_currency (formData st);
                    fd_category := fd_category (formData st);
                    fd_paymentMethod := fd_paymentMethod (formData st) |};
     alerts := alerts st |}.

(** [deleteDoc]: removes the document; nothing happens when there is none. *)
Definition deleteDoc (i : string) (db : gmap string Doc) : gmap string Doc :=
  delete i db.

(** [confirmed] is the answer to the confirmation dialog. *)
Definition handleDelete (confirmed : bool) (i : string) (w : World) : World :=
  if confirmed
  then {| remote := deleteDoc i (remote w); app := app w |}
  else w.

End Synced.


(** ** Statements of the specification and example inputs *)

Module Spec.




(** The sum of [priceInMain] over a list of records. *)
Fixpoint sum_priceInMain (ts : list Local.Transaction) : number :=
  match ts with
  | [] => num_of_Z 0
  | t :: ts' => num_add (Local.priceInMain t) (sum_priceInMain ts')
  end.

(** The sum of the raw [price] over a list of records. *)
Fixpoint sum_price (ts : list Local.Transaction) : number :=
  match ts with
  | [] => num_of_Z 0
  | t :: ts' => num_add (Local.price t) (sum_price ts')
  end.

(** The distinct elements of a list, in the order of their first
    occurrence. *)
Fixpoint first_occurrences (l : list string) : list string :=
  match l with
  | [] => []
  | c :: l' => c :: filter (fun x => x <> c) (first_occurrences l')
  end.

(** The per-currency series as the specification words it: one group per
    currency code, in the order in which the codes first occur, each with
    the sum of the raw prices of its records. *)
Definition by_currency (ts : list Local.Transaction) : list (string * number) :=
  map (fun c => (c, sum_price (filter (fun t => Local.currency t = c) ts)))
      (first_occurrences (map Local.currency ts)).

(** [q] rounded to two decimals, ties away from zero. *)
Definition round2 (q : Qc) : Qc :=
  if decide (q < 0)%Qc
  then (- (Qc_of_Z (Qfloor (- q * Qc_of_Z 100 + Q2Qc (1 # 2))%Qc) / Qc_of_Z 100))%Qc
  else (Qc_of_Z (Qfloor (q * Qc_of_Z 100 + Q2Qc (1 # 2))%Qc) / Qc_of_Z 100)%Qc.

(** A Number whose text is exact: NaN, or a rational with a finite decimal
    expansion (as every number read from a form field or a CSV cell is). *)
Definition prints_exactly (x : number) : bool :=
  match x with
  | Num q => terminating q
  | NaN => true
  end.

End Spec.

(** ** Auxiliary definitions of the proofs *)

Module Aux.

(** The reducer's step without indices: add to the first entry of the
    currency, or append a new entry. *)
Fixpoint bump (c0 : string) (p : number) (acc : list (string * number))
  : list (string * number) :=
  match acc with
  | [] => [(c0, p)]
  | (c, a) :: acc' =>
      if decide (c = c0) then (c, num_add a p) :: acc' else (c, a) :: bump c0 p acc'
  end.

(** A decimal digit. *)
Definition is_digit (d : Z) : Prop := 0 <= d <= 9.

(** The text of an exponent part. *)
Definition exponent_text (e : Z) : string :=
  (if 0 <=? e then "e+" else "e-") +:+ string_of_digits (digits_of_Z (Z.abs e)).

(** A text that the exponent reader can follow: empty, or an exponent part. *)
Definition tail_ok (rest : string) : Prop :=
  rest = EmptyString \/ exists e, rest = exponent_text e.

End Aux.

Module Examples.

Import Local.

Definition empty_form : FormData :=
  {| fd_date := "2024-03-01"; fd_name := ""; fd_price := "";
     fd_currency := "EUR"; fd_category := ""; fd_paymentMethod := "" |}.

(** A fresh state with the application's initial rate table. *)
Definition state_of (ts : list Transaction) (main : string) : State :=
  {| transactions := ts;
     mainCurrency := main;
     exchangeRates := initial_rates;
     showAddForm := false;
     editingTransaction := None;
     formData := empty_form;
     alerts := [] |}.


Definition lunch : Transaction :=
  {| id := "1"; date := "2024-01-01"; name := "Lunch"; price := num_of_Z 10;
     currency := "EUR"; priceInMain := num_of_Z 10; category := "Food";
     paymentMethod := "Cash"; createdAt := "2024-01-01T12:00:00.000Z" |}.

Definition taxi : Transaction :=
  {| id := "2"; date := "2024-01-02"; name := "Taxi"; price := num_of_Z 100;
     currency := "USD"; priceInMain := Num (Q2Qc (1000 # 11)); category := "Transport";
     paymentMethod := "Credit Card"; createdAt := "2024-01-02T09:30:00.000Z" |}.

Definition hotel : Transaction :=
  {| id := "3"; date := "2024-01-02"; name := "Hotel"; price := num_of_Z 80;
     currency := "EUR"; priceInMain := num_of_Z 80; category := "Accommodation";
     paymentMethod := ""; createdAt := "2024-01-02T20:00:00.000Z" |}.

Definition three_records : State := state_of [lunch; taxi; hotel] "EUR".

Definition env0 : Env :=
  {| date_now := "1709290000000";
     iso_now := "2024-03-01T10:46:40.000Z";
     import_id := fun i => "1709290000000" +:+ "0." +:+ number_toString (num_of_Z (Z.of_nat i + 1)) |}.

(** A row whose Price cell is not a number: it is accepted, with price NaN. *)
Definition museum_row : gmap string string :=
  {[ "Date" := "2024-03-02";
     "Name" := "Museum";
     "Price" := "abc";
     "Currency" := "EUR" ]}.

(** The row is imported into an empty store; the user opens the record for
    editing, which puts the text of its price, NaN, into the form, and
    corrects the name. *)
Definition unparseable_price_state : State :=
  let st := importFromCSV env0 (Some [museum_row]) (state_of [] "EUR") in
  match transactions st with
  | t :: _ => change_name "Museum ticket" (handleEdit t st)
  | [] => st
  end.

(** A form with an empty name. *)
Definition empty_name_state : State :=
  {| transactions := [lunch];
     mainCurrency := "EUR";
     exchangeRates := initial_rates;
     showAddForm := true;
     editingTransaction := None;
     formData := {| fd_date := "2024-03-01"; fd_name := ""; fd_price := "12.50";
                    fd_currency := "EUR"; fd_category := "Food"; fd_paymentMethod := "" |};
     alerts := [] |}.

(** A complete form, nothing being edited. *)
Definition dinner_state : State :=
  {| transactions := [lunch];
     mainCurrency := "EUR";
     exchangeRates := initial_rates;
     showAddForm := true;
     editingTransaction := None;
     formData := {| fd_date := "2024-03-01"; fd_name := "Dinner"; fd_price := "12.50";
                    fd_currency := "USD"; fd_category := "Food"; fd_paymentMethod := "" |};
     alerts := [] |}.

(** Half a yen of chewing gum, booked when EUR was the main currency: a
    third of a cent. *)
Definition gum : Transaction :=
  {| id := "4"; date := "2024-03-01"; name := "Gum"; price := Num (Q2Qc (1 # 2));
     currency := "JPY"; priceInMain := Num (Q2Qc (1 # 300)); category := "Food";
     paymentMethod := "Cash"; createdAt := "2024-03-01T08:00:00.000Z" |}.

(** The CSV row the application writes for [gum]. *)
Definition gum_row : gmap string string :=
  {[ "Date" := "2024-03-01";
     "Name" := "Gum";
     "Price" := "0.5";
     "Currency" := "JPY";
     "Price in Main" := "0.00";
     "Main Currency" := "EUR";
     "Category" := "Food";
     "Payment Method" := "Cash" ]}.

(** A row of a file that has no "Price in Main" column. *)
Definition taxi_row : gmap string string :=
  {[ "Date" := "2024-01-02";
     "Name" := "Taxi";
     "Price" := "100";
     "Currency" := "USD" ]}.

(** The form filled for a lunch of 10 EUR, the store empty. *)
Definition lunch_form_state : State :=
  {| transactions := [];
     mainCurrency := "EUR";
     exchangeRates := initial_rates;
     showAddForm := true;
     editingTransaction := None;
     formData := {| fd_date := "2024-01-01"; fd_name := "Lunch"; fd_price := "10";
                    fd_currency := "EUR"; fd_category := ""; fd_paymentMethod := "" |};
     alerts := [] |}.

Definition row_without_price : gmap string string :=
  {[ "Date" := "2024-01-03";
     "Name" := "Souvenir";
     "Currency" := "EUR" ]}.

End Examples.

Module SyncedExamples.

Import Synced.

Definition lunch_doc : Doc :=
  {| d_date := "2024-01-01"; d_name := "Lunch"; d_price := num_of_Z 10;
     d_currency := "EUR"; d_category := "Food"; d_paymentMethod := "Cash";
     d_priceInMain := num_of_Z 10; d_userId := "u1";
     d_createdAt := "2024-01-01T12:00:00.000Z" |}.

Definition signed_in : State :=
  {| user := Some "u1";
     transactions := [];
     mainCurrency := "EUR";
     exchangeRates := initial_rates;
     showAddForm := false;
     editingTransaction := None;
     formData := {| fd_date := "2024-02-01"; fd_name := ""; fd_price := "";
                    fd_currency := "EUR"; fd_category := ""; fd_paymentMethod := "" |};
     alerts := [] |}.

(** The collection holds one document of the signed-in user, and the client
    has received its snapshot. *)
Definition world0 : World :=
  onSnapshot {| remote := {[ "doc1" := lunch_doc ]}; app := signed_in |}.

(** The user opens that record for editing and renames it. *)
Definition world_editing : World :=
  {| remote := remote world0;
     app := match transactions (app world0) with
            | t :: _ => change_name "Long lunch" (handleEdit t (app world0))
            | [] => app world0
            end |}.

(** The submit reaches the server a month after the record was created. *)
Definition env1 : Env :=
  {| server_time := "2024-02-01T08:00:00.000Z";
     new_doc_id := "doc2";
     import_time := fun _ => "2024-02-01T08:00:00.000Z";
     import_doc_id := fun i => "row" +:+ number_toString (num_of_Z (Z.of_nat i));
     iso_now := "2024-02-01T08:00:00.000Z" |}.

End SyncedExamples.

(** ** Notions used by the further properties *)

Module More.

(** The sum of the amounts of a series. *)
Fixpoint sum_amounts (l : list (string * number)) : number :=
  match l with
  | [] => num_of_Z 0
  | e :: l' => num_add (snd e) (sum_amounts l')
  end.

(** A Number that is not NaN. *)
Definition is_num (x : number) : Prop := exists q, x = Num q.


(** [t] with another [priceInMain]. *)
Definition with_priceInMain (p : number) (t : Local.Transaction) : Local.Transaction :=
  {| Local.id := Local.id t;
     Local.date := Local.date t;
     Local.name := Local.name t;
     Local.price := Local.price t;
     Local.currency := Local.currency t;
     Local.priceInMain := p;
     Local.category := Local.category t;
     Local.paymentMethod := Local.paymentMethod t;
     Local.createdAt := Local.createdAt t |}.

(** The columns the import reads. *)
Definition import_columns : list string :=
  ["Date"; "Name"; "Price"; "Currency"; "Price in Main"; "Category"; "Payment Method"].

(** The transaction the snapshot listener makes of document [d] with id [i]. *)
Definition doc_transaction (i : string) (d : Synced.Doc) : Synced.Transaction :=
  {| Synced.id := i;
     Synced.date := Synced.d_date d;
     Synced.name := Synced.d_name d;
     Synced.price := Synced.d_price d;
     Synced.currency := Synced.d_currency d;
     Synced.priceInMain := Synced.d_priceInMain d;
     Synced.category := Synced.d_category d;
     Synced.paymentMethod := Synced.d_paymentMethod d;
     Synced.createdAt := Synced.d_createdAt d;
     Synced.userId := Some (Synced.d_userId d) |}.


(** Both keys are Numbers, and the first is not above the second. *)
Definition key_le {A : Type} (key : A -> number) (x y : A) : Prop :=
  exists a b, key x = Num a /\ key y = Num b /\ (a <= b)%Qc.

(** [- a] on Numbers. *)
Definition num_neg (a : number) : number :=
  match a with
  | Num x => Num (- x)%Qc
  | NaN => NaN
  end.

(** Both texts have a time, and the first is not later than the second. *)
Definition not_later (getTime : string -> number) (d1 d2 : string) : Prop :=
  exists a b, getTime d1 = Num a /\ getTime d2 = Num b /\ (a <= b)%Qc.

(** The listener's view of one document of the collection. *)
Definition listed (uid : string) (x : string * Synced.Doc) : option Synced.Transaction :=
  if bool_decide (Synced.d_userId (snd x) = uid)
  then Some (doc_transaction (fst x) (snd x))
  else None.

End More.

Module MoreExamples.

(** The times of the two dates of the example records, in milliseconds;
    any other text has no time. *)
Definition getTime0 (s : string) : number :=
  if bool_decide (s = "2024-01-01") then num_of_Z 1704067200000
  else if bool_decide (s = "2024-01-02") then num_of_Z 1704153600000
  else NaN.

(** The signed-in user has filled the form for a new record; the collection
    holds one document. *)
Definition world_adding : Synced.World :=
  {| Synced.remote := {[ "doc1" := SyncedExamples.lunch_doc ]};
     Synced.app :=
       {| Synced.user := Some "u1";
          Synced.transactions := [];
          Synced.mainCurrency := "EUR";
          Synced.exchangeRates := Synced.initial_rates;
          Synced.showAddForm := true;
          Synced.editingTransaction := None;
          Synced.formData :=
            {| Synced.fd_date := "2024-02-01"; Synced.fd_name := "Dinner";
               Synced.fd_price := "12.50"; Synced.fd_currency := "USD";
               Synced.fd_category := "Food"; Synced.fd_paymentMethod := "" |};
          Synced.alerts := [] |} |}.

(** The record being edited has meanwhile been deleted from the collection. *)
Definition world_stale_edit : Synced.World :=
  {| Synced.remote := ∅; Synced.app := Synced.app SyncedExamples.world_editing |}.

(** The signed-in user, the collection empty. *)
Definition world_empty : Synced.World :=
  {| Synced.remote := ∅; Synced.app := SyncedExamples.signed_in |}.

End MoreExamples.


(** * Properties *)

Import JS.

(** Evaluation of a closed, decidable statement. *)
Ltac by_evaluation :=
  match goal with
  | |- ?P => apply (bool_decide_eq_true_1 P); vm_compute; reflexivity
  end.

(** ** The built-in operations on sample texts *)

Example parseFloat_samples :
  map parseFloat ["100"; "90.91"; " -2.5e3x"; "12px"; ".5"; "1."; "1e"; "0.00"; "-0.00"]
  = [num_of_Z 100; Num (Q2Qc (9091 # 100)); num_of_Z (-2500); num_of_Z 12;
     Num (Q2Qc (1 # 2)); num_of_Z 1; num_of_Z 1; num_of_Z 0; num_of_Z 0] /\
  map parseFloat ["abc"; ""; "."; "-"; "NaN"; "undefined"] = [NaN; NaN; NaN; NaN; NaN; NaN].
Proof. by_evaluation. Qed.

Example number_toString_samples :
  map number_toString
      [num_of_Z 100; Num (Q2Qc (-5 # 2)); Num (Q2Qc (123456 # 1000)); num_of_Z 0; NaN;
       Num (Q2Qc (1 # 1000000)); Num (Q2Qc (15 # 100000000)); num_of_Z (10 ^ 21)]
  = ["100"; "-2.5"; "123.456"; "0"; "NaN"; "0.000001"; "1.5e-7"; "1e+21"].
Proof. by_evaluation. Qed.

Example toFixed2_samples :
  map toFixed2
      [Num (Q2Qc (1000 # 11)); Num (Q2Qc (5 # 1000)); Num (Q2Qc (-1 # 1000)); num_of_Z 0;
       Num (Q2Qc (12345 # 10)); NaN; num_of_Z (10 ^ 21)]
  = ["90.91"; "0.01"; "-0.00"; "0.00"; "1234.50"; "NaN"; "1e+21"].
Proof. by_evaluation. Qed.

(** ** Arithmetic of Numbers *)

Section NumberFacts.

Lemma num_add_comm (a b : number) : num_add a b = num_add b a.
Proof. destruct a, b; simpl; try reflexivity. f_equal. ring. Qed.

Lemma num_add_assoc (a b c : number) :
  num_add a (num_add b c) = num_add (num_add a b) c.
Proof. destruct a, b, c; simpl; try reflexivity. f_equal. ring. Qed.

Lemma Qc_of_Z_1 : Qc_of_Z 1 = 1%Qc.
Proof. apply Qc_is_canon. reflexivity. Qed.

Lemma Qc_of_Z_0 : Qc_of_Z 0 = 0%Qc.
Proof. apply Qc_is_canon. reflexivity. Qed.

Lemma num_add_0_l (a : number) : num_add (num_of_Z 0) a = a.
Proof.
  destruct a; unfold num_of_Z; simpl; try reflexivity.
  rewrite Qc_of_Z_0. f_equal. ring.
Qed.

Lemma num_add_0_r (a : number) : num_add a (num_of_Z 0) = a.
Proof. rewrite num_add_comm. apply num_add_0_l. Qed.

Lemma truthy_num_spec (a : number) :
  truthy_num a = true <-> exists r, a = Num r /\ r <> 0%Qc.
Proof.
  destruct a as [r|]; simpl.
  - rewrite negb_true_iff, bool_decide_eq_false. split.
    + intros H. exists r. split; [reflexivity | exact H].
    + intros (r' & [= ->] & H). exact H.
  - split; [discriminate | intros (r & [=] & _)].
Qed.

(** The rate the converter uses is always a nonzero number. *)
Lemma rate_or_1_nonzero (rates : gmap string number) (c : string) :
  exists r, rate_or_1 rates c = Num r /\ r <> 0%Qc.
Proof.
  assert (H1 : exists r, num_of_Z 1 = Num r /\ r <> 0%Qc).
  { exists 1%Qc. split; [unfold num_of_Z; by rewrite Qc_of_Z_1 | discriminate]. }
  unfold rate_or_1. destruct (rates !! c) as [x|]; [| exact H1].
  unfold or_num. destruct (truthy_num x) eqn:E; [| exact H1].
  by apply truthy_num_spec.
Qed.

End NumberFacts.

(** ** The currency converter *)

(** The converter never divides by zero. *)
Lemma convert_divisor_nonzero (st : Local.State) (c : string) :
  rate_or_1 (Local.exchangeRates st) c <> num_of_Z 0.
Proof.
  destruct (rate_or_1_nonzero (Local.exchangeRates st) c) as (r & -> & Hr).
  unfold num_of_Z. rewrite Qc_of_Z_0. congruence.
Qed.






(** ** The aggregator: total and average *)

Lemma fold_left_num_add (ts : list Local.Transaction) (a : number) :
  fold_left (fun sum t => num_add sum (Local.priceInMain t)) ts a
  = num_add a (Spec.sum_priceInMain ts).
Proof.
  revert a. induction ts as [|t ts IH]; intros a; simpl.
  - by rewrite num_add_0_r.
  - by rewrite IH, num_add_assoc.
Qed.

(** C7: the total is the sum of [priceInMain] over all records; the average
    is the total divided by the number of records, and 0 when there is none;
    with no records the total and the average are both 0. *)
Theorem total_and_average (st : Local.State) :
  Local.totalSpent st = Spec.sum_priceInMain (Local.transactions st) /\
  Local.avgTransaction st
  = match Local.transactions st with
    | [] => num_of_Z 0
    | _ :: _ =>
        num_div (Spec.sum_priceInMain (Local.transactions st))
                (num_of_Z (Z.of_nat (length (Local.transactions st))))
    end /\
  Local.totalSpent (Local.set_transactions [] st) = num_of_Z 0 /\
  Local.avgTransaction (Local.set_transactions [] st) = num_of_Z 0.
Proof.
  assert (Ht : forall s, Local.totalSpent s = Spec.sum_priceInMain (Local.transactions s)).
  { intros s. unfold Local.totalSpent. by rewrite fold_left_num_add, num_add_0_l. }
  repeat split; try reflexivity.
  - apply Ht.
  - unfold Local.avgTransaction. rewrite Ht.
    destruct (Local.transactions st); reflexivity.
Qed.

(** The divisor of the average is never zero. *)
Lemma average_divisor_nonzero (st : Local.State) :
  Local.transactions st <> [] ->
  exists r, num_of_Z (Z.of_nat (length (Local.transactions st))) = Num r /\ r <> 0%Qc.
Proof.
  intros H. eexists. split; [reflexivity |].
  destruct (Local.transactions st) as [|t ts]; [done |].
  intros E. unfold Qc_of_Z in E. change 0%Qc with (Q2Qc 0) in E.
  apply Q2Qc_eq_iff in E. unfold Qeq in E. simpl in E. lia.
Qed.

(** ** Deleting a record *)

Lemma filter_other_ids (ts : list Local.Transaction) (i : string) :
  i ∉ map Local.id ts -> filter (fun t => Local.id t <> i) ts = ts.
Proof.
  induction ts as [|t ts IH]; intros H; [reflexivity |].
  rewrite filter_cons. simpl in H. rewrite not_elem_of_cons in H. destruct H as [H1 H2].
  destruct (decide (Local.id t <> i)) as [_|Hn]; [by rewrite IH | by destruct Hn].
Qed.

(** C5: in a list with unique ids, deleting by an id that is present removes
    exactly the record with that id: the records before it and the records
    after it stay, unchanged and in order. *)
Theorem delete_removes_exactly (st : Local.State) (i : string) :
  NoDup (map Local.id (Local.transactions st)) ->
  i ∈ map Local.id (Local.transactions st) ->
  exists l1 t l2,
    Local.transactions st = l1 ++ t :: l2 /\
    Local.id t = i /\
    Local.transactions (Local.handleDelete true i st) = l1 ++ l2 /\
    i ∉ map Local.id (l1 ++ l2).
Proof.
  intros Hnd Hin. simpl.
  apply list_elem_of_fmap in Hin as (t & Hid & Ht).
  apply list_elem_of_split in Ht as (l1 & l2 & Heq).
  exists l1, t, l2. rewrite Heq in *. clear Heq.
  rewrite map_app in Hnd. simpl in Hnd.
  apply NoDup_app in Hnd as (_ & Hdisj & Hnd2).
  apply NoDup_cons in Hnd2 as [Hnot2 _].
  assert (Hnot1 : i ∉ map Local.id l1).
  { intros Hi. apply (Hdisj _ Hi). rewrite Hid. left. }
  rewrite <- Hid in Hnot2.
  assert (Hnot : i ∉ map Local.id (l1 ++ l2)).
  { rewrite map_app, elem_of_app. tauto. }
  repeat split; [done | | done].
  rewrite filter_app, filter_cons.
  destruct (decide (Local.id t <> i)) as [Hn|_]; [by destruct Hn |].
  by rewrite !filter_other_ids.
Qed.

Lemma delete_removes_exactly_witness :
  exists l1 t l2,
    [Examples.lunch; Examples.taxi; Examples.hotel] = l1 ++ t :: l2 /\
    Local.id t = "2" /\
    Local.transactions
      (Local.handleDelete true "2"
         (Examples.state_of [Examples.lunch; Examples.taxi; Examples.hotel] "EUR"))
    = l1 ++ l2 /\
    "2" ∉ map Local.id (l1 ++ l2).
Proof.
  apply (delete_removes_exactly
           (Examples.state_of [Examples.lunch; Examples.taxi; Examples.hotel] "EUR") "2").
  - apply (bool_decide_eq_true_1 _). vm_compute. reflexivity.
  - apply (bool_decide_eq_true_1 _). vm_compute. reflexivity.
Defined.

(** ** The form's submit *)

(** C4 as stated fails: a price text that is not a number passes the
    validation.  The form holds the price text "NaN"; the submit renames the
    record in the store and closes the form. *)
Lemma submit_unparseable_price_counterexample :
  Local.fd_price (Local.formData Examples.unparseable_price_state) = "NaN" /\
  parseFloat (Local.fd_price (Local.formData Examples.unparseable_price_state)) = NaN /\
  map Local.name (Local.transactions Examples.unparseable_price_state) = ["Museum"] /\
  map Local.name
      (Local.transactions
         (Local.handleAddTransaction Examples.env0 Examples.unparseable_price_state))
  = ["Museum ticket"] /\
  Local.showAddForm Examples.unparseable_price_state = true /\
  Local.showAddForm
    (Local.handleAddTransaction Examples.env0 Examples.unparseable_price_state) = false.
Proof. by_evaluation. Qed.

(** C4 (as amended): a submit checks that name and price are not empty, and
    nothing else.  When one of them is empty the user is alerted and the
    store, the form, its visibility and the edit target are as before; when
    both are filled a record is appended (no edit target) or replaces the
    records with the target's id, and the form is closed. *)
Theorem submit_validation (env : Local.Env) (st : Local.State) :
  let st' := Local.handleAddTransaction env st in
  (Local.fd_name (Local.formData st) = "" \/ Local.fd_price (Local.formData st) = "" ->
     Local.transactions st' = Local.transactions st /\
     Local.formData st' = Local.formData st /\
     Local.showAddForm st' = Local.showAddForm st /\
     Local.editingTransaction st' = Local.editingTransaction st /\
     Local.alerts st' = Local.alerts st ++ ["Please fill in name and price"]) /\
  (Local.fd_name (Local.formData st) <> "" /\ Local.fd_price (Local.formData st) <> "" ->
     Local.showAddForm st' = false /\
     Local.editingTransaction st' = None /\
     Local.alerts st' = Local.alerts st /\
     Local.transactions st'
     = match Local.editingTransaction st with
       | None => Local.transactions st ++ [Local.newTransaction env st]
       | Some e =>
           map (fun t => if bool_decide (Local.id t = Local.id e)
                         then Local.newTransaction env st else t)
               (Local.transactions st)
       end).
Proof.
  unfold Local.handleAddTransaction.
  destruct (Local.fd_name (Local.formData st)) as [|c1 n] eqn:En;
    destruct (Local.fd_price (Local.formData st)) as [|c2 p] eqn:Ep; simpl;
    (split; [intros H | intros [H1 H2]]); try done.
  destruct H; done.
Qed.

Lemma submit_validation_witness :
  Local.alerts (Local.handleAddTransaction Examples.env0 Examples.empty_name_state)
  = ["Please fill in name and price"] /\
  Local.showAddForm (Local.handleAddTransaction Examples.env0 Examples.dinner_state) = false.
Proof.
  split.
  - apply (submit_validation Examples.env0 Examples.empty_name_state).
    left. reflexivity.
  - apply (submit_validation Examples.env0 Examples.dinner_state).
    split; discriminate.
Defined.

(** ** Editing a record *)

(** In the local variant an edit submit replaces the records that carry the
    target's id by a record built from the form, with the target's id and
    creation time, and leaves the records with other ids as they are. *)
Lemma local_edit_replaces_record (env : Local.Env) (st : Local.State) (e : Local.Transaction) :
  Local.editingTransaction st = Some e ->
  Local.id e <> "" -> Local.createdAt e <> "" ->
  Local.fd_name (Local.formData st) <> "" -> Local.fd_price (Local.formData st) <> "" ->
  exists nt,
    Local.transactions (Local.handleAddTransaction env st)
    = map (fun t => if bool_decide (Local.id t = Local.id e) then nt else t)
          (Local.transactions st) /\
    Local.id nt = Local.id e /\
    Local.createdAt nt = Local.createdAt e /\
    Local.date nt = Local.fd_date (Local.formData st) /\
    Local.name nt = Local.fd_name (Local.formData st) /\
    Local.price nt = parseFloat (Local.fd_price (Local.formData st)) /\
    Local.currency nt = Local.fd_currency (Local.formData st) /\
    Local.category nt = Local.fd_category (Local.formData st) /\
    Local.paymentMethod nt = Local.fd_paymentMethod (Local.formData st) /\
    Local.priceInMain nt
    = Local.convertToMainCurrency st (parseFloat (Local.fd_price (Local.formData st)))
        (Local.fd_currency (Local.formData st)).
Proof.
  intros He Hid Hc Hn Hp. exists (Local.newTransaction env st). split.
  - unfold Local.handleAddTransaction. rewrite He.
    destruct (Local.fd_name (Local.formData st)); [done |].
    destruct (Local.fd_price (Local.formData st)); [done |]. reflexivity.
  - unfold Local.newTransaction. rewrite He. simpl.
    destruct (Local.id e); [done |]. destruct (Local.createdAt e); done.
Qed.

(** In the synced variant an edit submit that reaches an existing document
    writes the server's time into its [createdAt]. *)
Lemma synced_edit_sets_createdAt (env : Synced.Env) (w : Synced.World)
    (uid : string) (e : Synced.Transaction) (d : Synced.Doc) :
  Synced.user (Synced.app w) = Some uid ->
  Synced.editingTransaction (Synced.app w) = Some e ->
  Synced.fd_name (Synced.formData (Synced.app w)) <> "" ->
  Synced.fd_price (Synced.formData (Synced.app w)) <> "" ->
  Synced.remote w !! Synced.id e = Some d ->
  Synced.d_createdAt <$> (Synced.remote (Synced.handleAddTransaction env w) !! Synced.id e)
  = Some (Synced.server_time env).
Proof.
  intros Hu He Hn Hp Hd. unfold Synced.handleAddTransaction.
  rewrite Hu, He.
  destruct (Synced.fd_name (Synced.formData (Synced.app w))); [done |].
  destruct (Synced.fd_price (Synced.formData (Synced.app w))); [done |].
  simpl. unfold Synced.updateDoc. rewrite Hd. simpl.
  by rewrite lookup_insert_eq.
Qed.

(** C6 fails in the synced variant: a record created on 2024-01-01 and
    renamed on 2024-02-01 keeps its id and takes the new name, but its
    [createdAt] becomes the time of the edit. *)
Theorem synced_edit_overwrites_createdAt :
  map (fun t => (Synced.id t, Synced.name t, Synced.createdAt t))
      (Synced.transactions (Synced.app SyncedExamples.world0))
  = [("doc1", "Lunch", "2024-01-01T12:00:00.000Z")] /\
  map (fun t => (Synced.id t, Synced.name t, Synced.createdAt t))
      (Synced.transactions
         (Synced.app
            (Synced.onSnapshot
               (Synced.handleAddTransaction SyncedExamples.env1
                  SyncedExamples.world_editing))))
  = [("doc1", "Long lunch", "2024-02-01T08:00:00.000Z")].
Proof. by_evaluation. Qed.

(** ** The scenarios of the specification *)

(** Starting from an empty store, a lunch of 10 EUR with main currency EUR:
    the total and the average are 10. *)
Example scenario_first_record :
  Local.totalSpent
    (Local.handleAddTransaction Examples.env0 Examples.lunch_form_state) = num_of_Z 10 /\
  Local.avgTransaction
    (Local.handleAddTransaction Examples.env0 Examples.lunch_form_state) = num_of_Z 10 /\
  map toFixed2
      [Local.totalSpent (Local.handleAddTransaction Examples.env0 Examples.lunch_form_state)]
  = ["10.00"].
Proof. by_evaluation. Qed.

(** 100 USD with the rates EUR 1 and USD 1.1 and main currency EUR are
    100 / 1.1, shown as 90.91. *)
Example scenario_usd_to_eur :
  Local.convertToMainCurrency (Examples.state_of [] "EUR") (num_of_Z 100) "USD"
  = Num (Q2Qc (1000 # 11)) /\
  toFixed2 (Local.convertToMainCurrency (Examples.state_of [] "EUR") (num_of_Z 100) "USD")
  = "90.91".
Proof. by_evaluation. Qed.

(** A CSV row without a Price is dropped: the number of records does not
    change. *)
Example scenario_row_without_price :
  Local.transactions
    (Local.importFromCSV Examples.env0 (Some [Examples.row_without_price])
       Examples.three_records)
  = Local.transactions Examples.three_records.
Proof. by_evaluation. Qed.

(** ** The aggregator: the per-currency series *)

Section ByCurrency.

Import Local Aux.

Lemma by_currency_step_bump (acc : list (string * number)) (t : Transaction) :
  by_currency_step acc t = bump (currency t) (price t) acc.
Proof.
  unfold by_currency_step.
  induction acc as [|[c a] acc IH]; [reflexivity |].
  simpl. destruct (decide (c = currency t)) as [->|Hne]; [reflexivity |].
  destruct (list_find (fun a0 => a0.1 = currency t) acc) as [[i ex]|]; simpl in *.
  - by rewrite IH.
  - by rewrite <- IH.
Qed.

Lemma first_occurrences_elem (l : list string) (x : string) :
  x ∈ Spec.first_occurrences l <-> x ∈ l.
Proof.
  induction l as [|c l IH]; simpl; [done |].
  rewrite !elem_of_cons, list_elem_of_filter, IH.
  destruct (decide (x = c)); tauto.
Qed.

Lemma first_occurrences_NoDup (l : list string) : NoDup (Spec.first_occurrences l).
Proof.
  induction l as [|c l IH]; simpl; [constructor |].
  apply NoDup_cons. split.
  - rewrite list_elem_of_filter. intros [Hc _]. by apply Hc.
  - by apply NoDup_filter.
Qed.

Lemma first_occurrences_snoc (l : list string) (x : string) :
  Spec.first_occurrences (l ++ [x])
  = if decide (x ∈ l) then Spec.first_occurrences l else Spec.first_occurrences l ++ [x].
Proof.
  induction l as [|c l IH]; simpl.
  - destruct (decide (x ∈ [])) as [H|_]; [by apply elem_of_nil in H | reflexivity].
  - rewrite IH. destruct (decide (x ∈ l)) as [Hin|Hnin].
    + rewrite decide_True by (by right). reflexivity.
    + rewrite filter_app, filter_cons, filter_nil.
      destruct (decide (x <> c)) as [Hne|Heq].
      * rewrite decide_False; [reflexivity |].
        rewrite elem_of_cons. tauto.
      * apply dec_stable in Heq. subst x.
        rewrite decide_True by left. by rewrite app_nil_r.
Qed.

Lemma sum_price_snoc (ts : list Transaction) (t : Transaction) :
  Spec.sum_price (ts ++ [t]) = num_add (Spec.sum_price ts) (price t).
Proof.
  induction ts as [|t' ts IH]; cbn [app Spec.sum_price].
  - by rewrite num_add_0_l, num_add_0_r.
  - by rewrite IH, num_add_assoc.
Qed.

Lemma filter_absent_currency (ts : list Transaction) (c : string) :
  c ∉ map currency ts -> filter (fun t => currency t = c) ts = [].
Proof.
  induction ts as [|t ts IH]; [reflexivity |].
  cbn [map]. rewrite not_elem_of_cons. intros [Hne Hnin].
  rewrite filter_cons, decide_False by congruence. by apply IH.
Qed.

(** [bump] on a list of groups with distinct keys. *)
Lemma bump_groups (g g' : string -> number) (c0 : string) (p : number) (l : list string) :
  NoDup l ->
  (forall c, c <> c0 -> g' c = g c) ->
  g' c0 = num_add (g c0) p ->
  bump c0 p (map (fun c => (c, g c)) l)
  = if decide (c0 ∈ l) then map (fun c => (c, g' c)) l
    else map (fun c => (c, g' c)) l ++ [(c0, p)].
Proof.
  intros Hnd Hother Hsame. induction l as [|c l IH]; simpl.
  - destruct (decide (c0 ∈ [])) as [H|_]; [by apply elem_of_nil in H | reflexivity].
  - apply NoDup_cons in Hnd as [Hc Hnd]. destruct (decide (c = c0)) as [->|Hne].
    + rewrite decide_True by left. rewrite Hsame. f_equal.
      apply map_ext_in. intros c Hin. f_equal. symmetry. apply Hother.
      intros ->. apply Hc. by apply list_elem_of_In.
    + rewrite IH by exact Hnd. rewrite (Hother c Hne).
      destruct (decide (c0 ∈ l)) as [Hin|Hnin].
      * rewrite decide_True by (by right). reflexivity.
      * rewrite decide_False; [reflexivity |]. rewrite elem_of_cons.
        intros [E|E]; [by apply Hne | by apply Hnin].
Qed.

Lemma by_currency_snoc (ts : list Transaction) (t : Transaction) :
  Spec.by_currency (ts ++ [t]) = by_currency_step (Spec.by_currency ts) t.
Proof.
  rewrite by_currency_step_bump. unfold Spec.by_currency.
  rewrite (bump_groups _
             (fun c => Spec.sum_price (filter (fun t0 => currency t0 = c) (ts ++ [t])))
             (currency t) (price t)).
  - rewrite map_app. simpl map. rewrite first_occurrences_snoc.
    destruct (decide (currency t ∈ map currency ts)) as [Hin|Hnin].
    + rewrite decide_True by (by apply first_occurrences_elem). reflexivity.
    + rewrite decide_False by (by rewrite first_occurrences_elem).
      rewrite map_app. simpl. do 3 f_equal.
      rewrite filter_app, filter_cons, decide_True, filter_nil by reflexivity.
      rewrite sum_price_snoc, filter_absent_currency by exact Hnin.
      cbn [Spec.sum_price]. by rewrite num_add_0_l.
  - apply first_occurrences_NoDup.
  - intros c Hc. rewrite filter_app, filter_cons, decide_False, filter_nil by congruence.
    by rewrite app_nil_r.
  - rewrite filter_app, filter_cons, decide_True, filter_nil by reflexivity.
    apply sum_price_snoc.
Qed.

End ByCurrency.

(** C8: the per-currency series has one group per currency code, in the
    order in which the codes first occur in the transaction list, and each
    group holds the sum of the raw [price] (not [priceInMain]) of the
    records of that currency. *)
Theorem spendingByCurrency_groups (st : Local.State) :
  Local.spendingByCurrency st = Spec.by_currency (Local.transactions st).
Proof.
  unfold Local.spendingByCurrency.
  induction (Local.transactions st) as [|t ts IH] using rev_ind; [reflexivity |].
  by rewrite fold_left_app, IH, by_currency_snoc.
Qed.

(** The series sums [price] and not [priceInMain]: 100 USD booked as 90.90...
    EUR count as 100 in the USD group. *)
Example spendingByCurrency_example :
  Local.spendingByCurrency
    (Examples.state_of [Examples.lunch; Examples.taxi; Examples.hotel] "EUR")
  = [("EUR", num_of_Z 90); ("USD", num_of_Z 100)].
Proof. by_evaluation. Qed.

(** ** Texts of numbers: printing and reading back *)

Section NumberTexts.

Import Aux.

Lemma digit_val_char (d : Z) : is_digit d -> digit_val (digit_char d) = Some d.
Proof.
  intros [H0 H9].
  assert (H : d = 0 \/ d = 1 \/ d = 2 \/ d = 3 \/ d = 4 \/ d = 5 \/ d = 6 \/ d = 7 \/ d = 8 \/ d = 9) by lia.
  repeat (destruct H as [->|H]; [reflexivity |]). subst. reflexivity.
Qed.

Lemma read_digits_none (rest : string) :
  fst (read_digits rest) = [] -> read_digits rest = ([], rest).
Proof.
  destruct rest as [|c r]; cbn [read_digits]; [reflexivity |].
  destruct (digit_val c); [| reflexivity].
  destruct (read_digits r). discriminate.
Qed.

Lemma read_digits_app (ds : list Z) (rest : string) :
  Forall is_digit ds ->
  fst (read_digits rest) = [] ->
  read_digits (string_of_digits ds +:+ rest) = (ds, rest).
Proof.
  intros Hds Hrest. induction Hds as [|d ds Hd _ IH].
  - change (string_of_digits [] +:+ rest) with rest. by apply read_digits_none.
  - change (string_of_digits (d :: ds) +:+ rest)
      with (String (digit_char d) (string_of_digits ds +:+ rest)).
    cbn [read_digits]. rewrite digit_val_char by exact Hd. by rewrite IH.
Qed.

Lemma Z_of_digits_acc (ds : list Z) (a : Z) :
  fold_left (fun a d => 10 * a + d) ds a = a * 10 ^ Z.of_nat (length ds) + Z_of_digits ds.
Proof.
  unfold Z_of_digits. revert a. induction ds as [|d ds IH]; intros a.
  - simpl. lia.
  - cbn [fold_left length]. rewrite IH, (IH (10 * 0 + d)).
    rewrite Nat2Z.inj_succ, Z.pow_succ_r by lia. ring.
Qed.

Lemma Z_of_digits_app (a b : list Z) :
  Z_of_digits (a ++ b) = Z_of_digits a * 10 ^ Z.of_nat (length b) + Z_of_digits b.
Proof. unfold Z_of_digits at 1. rewrite fold_left_app. apply Z_of_digits_acc. Qed.

Lemma Z_of_digits_zeros (n : Z) : Z_of_digits (zeros n) = 0.
Proof.
  unfold zeros. induction (Z.to_nat n) as [|k IH]; [reflexivity |].
  change (replicate (S k) 0) with ([0] ++ replicate k 0). rewrite Z_of_digits_app, IH.
  reflexivity.
Qed.

Lemma length_zeros (n : Z) : Z.of_nat (length (zeros n)) = Z.max 0 n.
Proof. unfold zeros. rewrite length_replicate. lia. Qed.

Lemma Forall_zeros (n : Z) : Forall is_digit (zeros n).
Proof. unfold zeros. apply Forall_replicate. unfold is_digit; lia. Qed.

Lemma digits_aux_spec (f : nat) (n : Z) (acc : list Z) :
  0 <= n -> n < 10 ^ Z.of_nat (S f) -> Forall is_digit acc ->
  Forall is_digit (digits_aux (S f) n acc) /\
  Z_of_digits (digits_aux (S f) n acc) = n * 10 ^ Z.of_nat (length acc) + Z_of_digits acc /\
  (length acc < length (digits_aux (S f) n acc))%nat.
Proof.
  revert n acc. induction f as [|f IH]; intros n acc Hn Hlt Hacc;
    cbn [digits_aux]; destruct (Z.ltb_spec n 10) as [H10|H10].
  - split; [constructor; [unfold is_digit; lia | exact Hacc] |]. split; [| simpl; lia].
    change (n :: acc) with ([n] ++ acc). rewrite Z_of_digits_app. reflexivity.
  - change (10 ^ Z.of_nat 1) with 10 in Hlt. lia.
  - split; [constructor; [unfold is_digit; lia | exact Hacc] |]. split; [| simpl; lia].
    change (n :: acc) with ([n] ++ acc). rewrite Z_of_digits_app. reflexivity.
  - assert (Hmod := Z.mod_pos_bound n 10 ltac:(lia)).
    destruct (IH (n / 10) (n mod 10 :: acc)) as (H1 & H2 & H3).
    + apply Z.div_pos; lia.
    + apply Z.div_lt_upper_bound; [lia |].
      rewrite Nat2Z.inj_succ, Z.pow_succ_r in Hlt by lia. exact Hlt.
    + constructor; [unfold is_digit; lia | exact Hacc].
    + cbn [digits_aux] in H1, H2, H3.
      split; [exact H1 |]. split; [| simpl in H3; lia].
      rewrite H2. change (n mod 10 :: acc) with ([n mod 10] ++ acc).
      rewrite Z_of_digits_app. cbn [length app].
      rewrite Nat2Z.inj_succ, Z.pow_succ_r by lia.
      change (Z_of_digits [n mod 10]) with (10 * 0 + n mod 10).
      rewrite (Z.div_mod n 10) at 3 by lia. ring.
Qed.

Lemma digits_of_Z_spec (n : Z) :
  0 <= n ->
  Forall is_digit (digits_of_Z n) /\ Z_of_digits (digits_of_Z n) = n /\
  digits_of_Z n <> [].
Proof.
  intros Hn. unfold digits_of_Z.
  destruct (digits_aux_spec (Z.to_nat (Z.log2 n)) n []) as (H1 & H2 & H3);
    [exact Hn | | constructor |].
  - destruct (Z.eq_dec n 0) as [->|Hne]; [reflexivity |].
    rewrite Nat2Z.inj_succ, Z2Nat.id by apply Z.log2_nonneg.
    destruct (Z.log2_spec n) as [_ Hlt]; [lia |].
    eapply Z.lt_le_trans; [exact Hlt |].
    apply Z.pow_le_mono_l. lia.
  - split; [exact H1 |]. split.
    + rewrite H2. unfold Z_of_digits. cbn [length fold_left]. change (10 ^ Z.of_nat 0) with 1. lia.
    + intros E. rewrite E in H3. simpl in H3. lia.
Qed.

Lemma Qc_of_Z_mul (a b : Z) : Qc_of_Z (a * b) = (Qc_of_Z a * Qc_of_Z b)%Qc.
Proof.
  apply Qc_is_canon. unfold Qc_of_Z, Qcmult, Q2Qc. cbn [this].
  rewrite !Qred_correct, inject_Z_mult. reflexivity.
Qed.

Lemma Qc_of_Z_add (a b : Z) : Qc_of_Z (a + b) = (Qc_of_Z a + Qc_of_Z b)%Qc.
Proof.
  apply Qc_is_canon. unfold Qc_of_Z, Qcplus, Q2Qc. cbn [this].
  rewrite !Qred_correct, inject_Z_plus. reflexivity.
Qed.

Lemma Qc_of_Z_opp (a : Z) : Qc_of_Z (- a) = (- Qc_of_Z a)%Qc.
Proof.
  apply Qc_is_canon. unfold Qc_of_Z, Qcopp, Q2Qc. cbn [this].
  rewrite !Qred_correct, inject_Z_opp. reflexivity.
Qed.

Lemma Qc_of_Z_inj (a b : Z) : Qc_of_Z a = Qc_of_Z b -> a = b.
Proof.
  unfold Qc_of_Z. intros H. apply Q2Qc_eq_iff in H. by apply inject_Z_injective.
Qed.

Lemma Qc_of_Z_nonzero (a : Z) : a <> 0 -> Qc_of_Z a <> 0%Qc.
Proof. intros Ha H. apply Ha, Qc_of_Z_inj. by rewrite Qc_of_Z_0. Qed.

Lemma ten_pow_nonzero (k : Z) : 0 <= k -> Qc_of_Z (10 ^ k) <> 0%Qc.
Proof. intros Hk. apply Qc_of_Z_nonzero. apply Z.pow_nonzero; lia. Qed.

Lemma pow10_nonneg (e : Z) : 0 <= e -> pow10 e = Qc_of_Z (10 ^ e).
Proof. intros H. unfold pow10. destruct (Z.leb_spec 0 e); [reflexivity | lia]. Qed.

Lemma pow10_neg (e : Z) : e < 0 -> pow10 e = (/ Qc_of_Z (10 ^ (- e)))%Qc.
Proof. intros H. unfold pow10. destruct (Z.leb_spec 0 e); [lia | reflexivity]. Qed.

Lemma pow10_nonzero (e : Z) : pow10 e <> 0%Qc.
Proof.
  destruct (Z.le_gt_cases 0 e) as [H|H].
  - rewrite pow10_nonneg by exact H. by apply ten_pow_nonzero.
  - rewrite pow10_neg by exact H. intros E.
    assert (Hn := ten_pow_nonzero (- e) ltac:(lia)).
    apply Qcmult_inv_r in Hn. rewrite E, Qcmult_0_r in Hn. discriminate.
Qed.

Lemma pow10_add_nonneg (e k : Z) : 0 <= k -> (pow10 e * Qc_of_Z (10 ^ k))%Qc = pow10 (e + k).
Proof.
  intros Hk. destruct (Z.le_gt_cases 0 e) as [He|He].
  - rewrite !pow10_nonneg by lia. rewrite Z.pow_add_r by lia. by rewrite Qc_of_Z_mul.
  - rewrite (pow10_neg e) by exact He.
    assert (Hn := ten_pow_nonzero (- e) ltac:(lia)).
    destruct (Z.le_gt_cases 0 (e + k)) as [Hs|Hs].
    + rewrite pow10_nonneg by exact Hs.
      replace k with ((e + k) + - e) at 1 by lia.
      rewrite Z.pow_add_r, Qc_of_Z_mul by lia. field. exact Hn.
    + rewrite pow10_neg by exact Hs.
      assert (Hn2 := ten_pow_nonzero (- (e + k)) ltac:(lia)).
      replace (- e) with (- (e + k) + k) in * by lia.
      rewrite Z.pow_add_r, Qc_of_Z_mul in * by lia.
      assert (Hk0 := ten_pow_nonzero k Hk).
      field. split; assumption.
Qed.

Lemma pow10_add (a b : Z) : pow10 (a + b) = (pow10 a * pow10 b)%Qc.
Proof.
  destruct (Z.le_gt_cases 0 b) as [Hb|Hb].
  - rewrite (pow10_nonneg b) by exact Hb. symmetry. by apply pow10_add_nonneg.
  - rewrite (pow10_neg b) by exact Hb.
    assert (Hn := ten_pow_nonzero (- b) ltac:(lia)).
    assert (H := pow10_add_nonneg (a + b) (- b) ltac:(lia)).
    replace (a + b + - b) with a in H by lia. rewrite <- H.
    field. exact Hn.
Qed.

Lemma read_digits_all (ds : list Z) :
  Forall is_digit ds -> read_digits (string_of_digits ds) = (ds, EmptyString).
Proof.
  intros Hds. induction Hds as [|d ds Hd _ IH]; [reflexivity |].
  change (string_of_digits (d :: ds)) with (String (digit_char d) (string_of_digits ds)).
  cbn [read_digits]. rewrite digit_val_char by exact Hd. by rewrite IH.
Qed.

Lemma string_of_digits_app (a b : list Z) :
  string_of_digits (a ++ b) = string_of_digits a +:+ string_of_digits b.
Proof.
  induction a as [|d a IH]; [reflexivity |].
  change (string_of_digits ((d :: a) ++ b))
    with (String (digit_char d) (string_of_digits (a ++ b))).
  rewrite IH. reflexivity.
Qed.

Lemma exponent_text_head (e : Z) : fst (read_digits (exponent_text e)) = [].
Proof. unfold exponent_text. destruct (0 <=? e); reflexivity. Qed.

Lemma parse_exponent_text (e : Z) : parse_exponent (exponent_text e) = e.
Proof.
  destruct (digits_of_Z_spec (Z.abs e)) as (Hd & Hv & Hne); [lia |].
  unfold exponent_text. destruct (Z.leb_spec 0 e) as [He|He].
  - change ("e+" +:+ ?s) with (String "e" (String "+" s)).
    cbn [parse_exponent]. rewrite bool_decide_eq_true_2 by (by left).
    rewrite read_digits_all by exact Hd. cbn [fst].
    destruct (digits_of_Z (Z.abs e)) eqn:E; [done |]. rewrite Hv. lia.
  - change ("e-" +:+ ?s) with (String "e" (String "-" s)).
    cbn [parse_exponent]. rewrite bool_decide_eq_true_2 by (by left).
    rewrite read_digits_all by exact Hd. cbn [fst].
    destruct (digits_of_Z (Z.abs e)) eqn:E; [done |]. rewrite Hv. lia.
Qed.

Lemma tail_ok_head (rest : string) : tail_ok rest -> fst (read_digits rest) = [].
Proof. intros [->|[e ->]]; [reflexivity | apply exponent_text_head]. Qed.

Lemma parse_unsigned_int (ds : list Z) (rest : string) :
  Forall is_digit ds -> ds <> [] -> tail_ok rest ->
  parse_unsigned (string_of_digits ds +:+ rest)
  = Some (Qc_of_Z (Z_of_digits ds) * pow10 (parse_exponent rest))%Qc.
Proof.
  intros Hds Hne Hrest. unfold parse_unsigned.
  rewrite read_digits_app by (try apply tail_ok_head; assumption).
  destruct Hrest as [->|[e ->]].
  - destruct ds; [done | reflexivity].
  - unfold exponent_text at 1. destruct (0 <=? e); destruct ds; done.
Qed.

Lemma parse_unsigned_frac (ip fp : list Z) (rest : string) :
  Forall is_digit ip -> Forall is_digit fp -> ip <> [] -> tail_ok rest ->
  parse_unsigned (string_of_digits ip +:+ "." +:+ string_of_digits fp +:+ rest)
  = Some (Qc_of_Z (Z_of_digits (ip ++ fp))
          * pow10 (parse_exponent rest - Z.of_nat (length fp)))%Qc.
Proof.
  intros Hip Hfp Hne Hrest. unfold parse_unsigned.
  rewrite read_digits_app by (try reflexivity; assumption).
  change ("." +:+ ?s) with (String "."%char s). cbv iota beta.
  rewrite read_digits_app by (try apply tail_ok_head; assumption).
  destruct ip; [done | reflexivity].
Qed.

Lemma string_app_nil_r (s : string) : s +:+ "" = s.
Proof.
  induction s as [|c s IH]; [reflexivity |].
  change (String c s +:+ "") with (String c (s +:+ "")). by rewrite IH.
Qed.

Lemma digit_val_range (c : ascii) (d : Z) :
  digit_val c = Some d -> 48 <= Z.of_nat (nat_of_ascii c) <= 57.
Proof.
  unfold digit_val. cbv zeta.
  destruct (Z.leb_spec 48 (Z.of_nat (nat_of_ascii c)));
    destruct (Z.leb_spec (Z.of_nat (nat_of_ascii c)) 57); cbn [andb]; try discriminate.
  lia.
Qed.

(** A text with an unsigned literal at its very start is read as that literal. *)
Lemma parseFloat_unsigned (s : string) (v : Qc) :
  parse_unsigned s = Some v -> parseFloat s = Num v.
Proof.
  destruct s as [|c s']; [discriminate |]. intros H.
  assert (Hc : 48 <= Z.of_nat (nat_of_ascii c) <= 57 \/ c = "."%char).
  { unfold parse_unsigned in H. cbn [read_digits] in H.
    destruct (digit_val c) as [d|] eqn:E; [left; by eapply digit_val_range |].
    right. destruct (decide (c = "."%char)) as [|Hne]; [done |].
    exfalso. revert H Hne. clear. 
    destruct c as [[] [] [] [] [] [] [] []]; try discriminate. done. }
  unfold parseFloat. cbn [trim_start].
  assert (Hs : is_space c = false).
  { destruct Hc as [Hc| ->]; [| reflexivity].
    unfold is_space. cbv zeta. apply bool_decide_eq_false_2. lia. }
  rewrite Hs.
  rewrite !bool_decide_eq_false_2; [by rewrite H | |].
  - intros ->. destruct Hc as [Hc|Hc]; [| discriminate].
    change (nat_of_ascii "+") with 43%nat in Hc. lia.
  - intros ->. destruct Hc as [Hc|Hc]; [| discriminate].
    change (nat_of_ascii "-") with 45%nat in Hc. lia.
Qed.

Lemma parseFloat_minus (s : string) (v : Qc) :
  parse_unsigned s = Some v -> parseFloat ("-" +:+ s) = Num (- v)%Qc.
Proof.
  intros H. change ("-" +:+ s) with (String "-"%char s).
  unfold parseFloat. cbn [trim_start].
  change (is_space "-") with false. cbv iota.
  rewrite bool_decide_eq_true_2 by reflexivity. by rewrite H.
Qed.

Lemma pow10_0 : pow10 0 = 1%Qc.
Proof. change (pow10 0) with (Qc_of_Z 1). apply Qc_of_Z_1. Qed.

Lemma parse_exponent_form (sd : list Z) (e : Z) :
  Forall is_digit sd -> sd <> [] ->
  parse_unsigned
    match sd with
    | [] => "0"
    | [d] => string_of_digits [d] +:+ exponent_text e
    | d :: ds' => string_of_digits [d] +:+ "." +:+ string_of_digits ds' +:+ exponent_text e
    end
  = Some (Qc_of_Z (Z_of_digits sd) * pow10 (e + 1 - Z.of_nat (length sd)))%Qc.
Proof.
  intros Hsd Hne. destruct sd as [|d [|d' sd']]; [done | |].
  - rewrite parse_unsigned_int; [| done | done | right; by eexists].
    rewrite parse_exponent_text. cbn [length]. do 3 f_equal. lia.
  - change (d :: d' :: sd') with ([d] ++ (d' :: sd')) in *.
    apply Forall_app in Hsd as [Hd Hsd'].
    rewrite parse_unsigned_frac; [| done | done | done | right; by eexists].
    rewrite parse_exponent_text. rewrite length_app. cbn [length].
    do 3 f_equal. lia.
Qed.

Lemma parse_format_pos (sd : list Z) (n : Z) :
  Forall is_digit sd -> sd <> [] ->
  parse_unsigned (format_pos sd n)
  = Some (Qc_of_Z (Z_of_digits sd) * pow10 (n - Z.of_nat (length sd)))%Qc.
Proof.
  intros Hsd Hne. unfold format_pos. cbv zeta.
  set (k := Z.of_nat (length sd)).
  assert (Hk : 0 < k) by (destruct sd; [done | subst k; cbn [length]; lia]).
  assert (Hexp := parse_exponent_form sd (n - 1) Hsd Hne).
  replace (n - 1 + 1) with n in Hexp by lia.
  assert (Hint : k <= n ->
    parse_unsigned (string_of_digits (sd ++ zeros (n - k)))
    = Some (Qc_of_Z (Z_of_digits sd) * pow10 (n - k))%Qc).
  { intros Hkn. rewrite <- (string_app_nil_r (string_of_digits _)).
    rewrite parse_unsigned_int.
    - rewrite Z_of_digits_app, Z_of_digits_zeros, length_zeros, Z.add_0_r.
      rewrite Z.max_r by lia. rewrite Qc_of_Z_mul. cbn [parse_exponent].
      rewrite (pow10_nonneg (n - k)) by lia. rewrite pow10_0. f_equal. ring.
    - apply Forall_app. split; [exact Hsd | apply Forall_zeros].
    - destruct sd; done.
    - by left. }
  assert (Hpoint : 0 < n -> n < k ->
    parse_unsigned (string_of_digits (take (Z.to_nat n) sd) +:+ "." +:+
                    string_of_digits (drop (Z.to_nat n) sd))
    = Some (Qc_of_Z (Z_of_digits sd) * pow10 (n - k))%Qc).
  { intros H0 Hkn.
    rewrite <- (string_app_nil_r (string_of_digits (drop _ _))).
    rewrite parse_unsigned_frac.
    - rewrite take_drop. cbn [parse_exponent]. rewrite length_drop.
      do 3 f_equal. subst k. lia.
    - by apply Forall_take.
    - by apply Forall_drop.
    - destruct sd; [done |]. destruct (Z.to_nat n) eqn:E; [lia | done].
    - by left. }
  assert (Hsmall : n <= 0 ->
    parse_unsigned ("0." +:+ string_of_digits (zeros (- n) ++ sd))
    = Some (Qc_of_Z (Z_of_digits sd) * pow10 (n - k))%Qc).
  { intros H0.
    change ("0." +:+ ?s) with (string_of_digits [0] +:+ "." +:+ s).
    rewrite <- (string_app_nil_r (string_of_digits (zeros _ ++ _))).
    rewrite parse_unsigned_frac.
    - rewrite !Z_of_digits_app, Z_of_digits_zeros. cbn [parse_exponent].
      rewrite !length_app. rewrite Nat2Z.inj_add, length_zeros.
      change (Z_of_digits [0]) with 0. rewrite !Z.mul_0_l, !Z.add_0_l.
      do 3 f_equal. subst k. lia.
    - repeat constructor; unfold is_digit; lia.
    - apply Forall_app. split; [apply Forall_zeros | exact Hsd].
    - done.
    - by left. }
  destruct (Z.leb_spec k n), (Z.leb_spec n 21), (Z.ltb_spec 0 n), (Z.ltb_spec (-6) n),
    (Z.leb_spec n 0); cbn [andb]; try lia;
    first [exact Hexp | by apply Hint | by apply Hpoint | by apply Hsmall].
Qed.

Lemma drop_zeros_spec (l : list Z) :
  exists j : nat, l = replicate j 0 ++ drop_zeros l.
Proof.
  induction l as [|x l [j IH]]; [by exists 0%nat |].
  cbn [drop_zeros]. destruct (decide (x = 0)) as [->|Hx].
  - exists (S j). cbn [replicate app]. by rewrite <- IH.
  - exists 0%nat. destruct x; done.
Qed.

Lemma strip_trailing_zeros_spec (ds : list Z) :
  exists j : Z, 0 <= j /\ ds = strip_trailing_zeros ds ++ zeros j.
Proof.
  unfold strip_trailing_zeros, zeros.
  destruct (drop_zeros_spec (reverse ds)) as [j Hj].
  exists (Z.of_nat j). split; [lia |]. rewrite Nat2Z.id.
  rewrite <- (reverse_involutive ds) at 1. rewrite Hj at 1.
  rewrite reverse_app. f_equal. apply reverse_replicate.
Qed.

Lemma round_half_up_Z (z : Z) : round_half_up (Qc_of_Z z) = z.
Proof.
  unfold round_half_up, Qc_of_Z, Qcplus, Q2Qc. cbn [this].
  rewrite !Qred_correct. unfold Qfloor, Qplus, inject_Z. cbn [Qnum Qden].
  symmetry. apply Z.div_unique with (r := 1); lia.
Qed.

Lemma Qc_decompose (q : Qc) :
  (q * Qc_of_Z (Zpos (Qden q)))%Qc = Qc_of_Z (Qnum q).
Proof.
  apply Qc_is_canon. unfold Qc_of_Z, Qcmult, Q2Qc. cbn [this].
  rewrite !Qred_correct. destruct (this q) as [a b]. unfold Qeq, Qmult, inject_Z.
  cbn [Qnum Qden]. nia.
Qed.

Lemma Qc_pos_num (q : Qc) : (0 < q)%Qc -> 0 < Qnum q.
Proof.
  unfold Qclt. intros H. change (this 0%Qc) with 0%Q in H.
  unfold Qlt in H. cbn [Qnum Qden] in H. lia.
Qed.

(** The digits of a positive number with a finite expansion denote it. *)
Lemma sig_digits_spec (q : Qc) :
  (0 < q)%Qc -> terminating q = true ->
  Forall is_digit (sig_digits q).1 /\ (sig_digits q).1 <> [] /\
  q = (Qc_of_Z (Z_of_digits (sig_digits q).1)
       * pow10 ((sig_digits q).2 - Z.of_nat (length (sig_digits q).1)))%Qc.
Proof.
  intros Hpos Hterm. unfold sig_digits, decimal_scale. rewrite Hterm. cbv zeta. cbn [fst snd].
  set (d := Zpos (Qden q)) in *. set (E := Z.log2 d).
  assert (HE : 0 <= E) by apply Z.log2_nonneg.
  unfold terminating in Hterm. fold d in Hterm. fold E in Hterm.
  apply Z.eqb_eq in Hterm. apply Z.mod_divide in Hterm; [| lia].
  destruct Hterm as [c Hc].
  assert (Hp : 0 < 10 ^ E) by (apply Z.pow_pos_nonneg; lia).
  assert (Hcpos : 0 < c) by nia.
  assert (Hnum := Qc_pos_num q Hpos).
  assert (Hm : (q * pow10 E)%Qc = Qc_of_Z (Qnum q * c)).
  { rewrite pow10_nonneg by exact HE. rewrite Hc, (Z.mul_comm c d), !Qc_of_Z_mul.
    rewrite Qcmult_assoc. unfold d. by rewrite Qc_decompose. }
  rewrite Hm, round_half_up_Z.
  set (m := Qnum q * c) in *. assert (Hmpos : 0 < m) by (subst m; nia).
  destruct (digits_of_Z_spec m) as (Hd & Hv & Hne); [lia |].
  destruct (strip_trailing_zeros_spec (digits_of_Z m)) as (j & Hj & Hs).
  set (ds := digits_of_Z m) in *. set (sd := strip_trailing_zeros ds) in *.
  assert (Hsd : Forall is_digit sd).
  { rewrite Hs in Hd. by apply Forall_app in Hd as [? _]. }
  assert (Hval : m = Z_of_digits sd * 10 ^ j).
  { rewrite <- Hv, Hs, Z_of_digits_app, Z_of_digits_zeros, length_zeros.
    rewrite Z.max_r by lia. lia. }
  split; [exact Hsd |]. split.
  - intros E0. rewrite E0 in Hval. change (Z_of_digits []) with 0 in Hval. lia.
  - assert (Hlen : Z.of_nat (length ds) = Z.of_nat (length sd) + j).
    { rewrite Hs at 1. rewrite length_app, Nat2Z.inj_add, length_zeros. lia. }
    rewrite Hlen. replace (Z.of_nat (length sd) + j - E - Z.of_nat (length sd)) with (j + - E) by lia.
    rewrite pow10_add, (pow10_nonneg j) by exact Hj.
    rewrite Qcmult_assoc, <- Qc_of_Z_mul, <- Hval, <- Hm.
    rewrite <- Qcmult_assoc, <- pow10_add. replace (E + - E) with 0 by lia.
    rewrite pow10_0. ring.
Qed.

Lemma parseFloat_toString_pos (q : Qc) :
  (0 < q)%Qc -> terminating q = true ->
  parse_unsigned (let '(ds, n) := sig_digits q in format_pos ds n) = Some q.
Proof.
  intros Hpos Hterm. destruct (sig_digits_spec q Hpos Hterm) as (Hd & Hne & Hq).
  destruct (sig_digits q) as [ds n]. cbn [fst snd] in *.
  rewrite parse_format_pos by assumption. by rewrite <- Hq.
Qed.

Lemma Qden_opp (q : Qc) : Qden (- q)%Qc = Qden q.
Proof.
  unfold Qcopp, Q2Qc. cbn [this]. rewrite Qred_opp, (canon q). reflexivity.
Qed.

Lemma terminating_opp (q : Qc) : terminating (- q)%Qc = terminating q.
Proof. unfold terminating. by rewrite Qden_opp. Qed.

(** The text of a number with a finite decimal expansion reads back as the
    number. *)
Lemma parseFloat_number_toString (x : number) :
  Spec.prints_exactly x = true ->
  parseFloat (number_toString x) = x.
Proof.
  destruct x as [q|]; [| reflexivity]. cbn [Spec.prints_exactly].
  intros Hterm. unfold number_toString.
  destruct (decide (q = 0%Qc)) as [->|Hq0].
  - rewrite bool_decide_eq_true_2 by reflexivity.
    apply (bool_decide_eq_true_1 _). vm_compute. reflexivity.
  - rewrite bool_decide_eq_false_2 by exact Hq0.
    destruct (decide (q < 0)%Qc) as [Hneg|Hnn].
    + rewrite bool_decide_eq_true_2 by exact Hneg.
      assert (Hpos : (0 < - q)%Qc).
      { apply Qclt_minus_iff in Hneg. by rewrite Qcplus_0_l in Hneg. }
      assert (H := parseFloat_toString_pos (- q)%Qc Hpos).
      rewrite terminating_opp in H. specialize (H Hterm).
      destruct (sig_digits (- q)%Qc) as [ds n].
      rewrite (parseFloat_minus _ _ H). by rewrite Qcopp_involutive.
    + rewrite bool_decide_eq_false_2 by exact Hnn.
      assert (Hpos : (0 < q)%Qc).
      { apply Qcnot_lt_le in Hnn. apply Qcle_lt_or_eq in Hnn as [H|H]; [exact H | congruence]. }
      assert (H := parseFloat_toString_pos q Hpos Hterm).
      destruct (sig_digits q) as [ds n]. by apply parseFloat_unsigned.
Qed.

Lemma round_half_up_nonneg (a : Qc) : (0 <= a)%Qc -> 0 <= round_half_up a.
Proof.
  intros Ha. unfold round_half_up.
  change 0 with (Qfloor 0). apply Qfloor_resp_le.
  assert (H : (0 <= a + Q2Qc (1 # 2))%Qc).
  { rewrite <- (Qcplus_0_l 0). apply Qcplus_le_compat; [exact Ha | done]. }
  exact H.
Qed.

Lemma parse_fixed (m : Z) :
  0 <= m ->
  let ds := digits_of_Z m in
  let ds' := zeros (3 - Z.of_nat (length ds)) ++ ds in
  let k := length ds' in
  parse_unsigned (string_of_digits (take (k - 2)%nat ds') +:+ "." +:+
                  string_of_digits (drop (k - 2)%nat ds'))
  = Some (Qc_of_Z m / Qc_of_Z 100)%Qc.
Proof.
  intros Hm ds ds' k.
  destruct (digits_of_Z_spec m Hm) as (Hd & Hv & Hne). fold ds in Hd, Hv, Hne.
  assert (Hd' : Forall is_digit ds').
  { apply Forall_app. split; [apply Forall_zeros | exact Hd]. }
  assert (Hk : (3 <= k)%nat).
  { subst k ds'. rewrite length_app. 
    assert (H := length_zeros (3 - Z.of_nat (length ds))). lia. }
  assert (Hv' : Z_of_digits ds' = m).
  { subst ds'. rewrite Z_of_digits_app, Z_of_digits_zeros. lia. }
  rewrite <- (string_app_nil_r (string_of_digits (drop _ _))).
  rewrite parse_unsigned_frac.
  - rewrite take_drop, Hv'. cbn [parse_exponent]. rewrite length_drop.
    fold k. replace (0 - Z.of_nat (k - (k - 2))) with (-2) by lia.
    f_equal.
  - by apply Forall_take.
  - by apply Forall_drop.
  - intros E. apply (f_equal length) in E. rewrite length_take in E. fold k in E.
    cbn [length] in E. lia.
  - by left.
Qed.

Lemma parseFloat_toFixed2 (q : Qc) :
  (- pow10 21 < q)%Qc -> (q < pow10 21)%Qc ->
  parseFloat (toFixed2 (Num q)) = Num (Spec.round2 q).
Proof.
  intros Hlo Hhi. unfold toFixed2, Spec.round2. cbv zeta.
  assert (H100 : pow10 2 = Qc_of_Z 100) by reflexivity.
  assert (H100' : (0 <= pow10 2)%Qc) by done.
  destruct (decide (q < 0)%Qc) as [Hneg|Hnn].
  - rewrite (bool_decide_eq_true_2 _ Hneg).
    assert (Hpos : (0 <= - q)%Qc).
    { apply Qclt_le_weak. apply Qclt_minus_iff in Hneg. by rewrite Qcplus_0_l in Hneg. }
    rewrite bool_decide_eq_false_2.
    + assert (Hm : 0 <= round_half_up (- q * pow10 2)%Qc).
      { apply round_half_up_nonneg. by apply Qcmult_nonneg_nonneg. }
      rewrite (parseFloat_minus _ _ (parse_fixed _ Hm)).
      rewrite H100. reflexivity.
    + apply Qclt_nge.
      apply (Qcplus_lt_mono_r _ _ (pow10 21 + - q)%Qc) in Hlo.
      ring_simplify in Hlo. exact Hlo.
  - rewrite (bool_decide_eq_false_2 _ Hnn).
    apply Qcnot_lt_le in Hnn.
    rewrite bool_decide_eq_false_2 by (by apply Qclt_not_le).
    apply parseFloat_unsigned.
    rewrite parse_fixed.
    + rewrite H100. reflexivity.
    + apply round_half_up_nonneg. by apply Qcmult_nonneg_nonneg.
Qed.

End NumberTexts.

(** ** The CSV adapter *)

Section CsvAdapter.

Import Local.

Lemma csv_row_lookup (r : ExportRow) :
  csv_row r !! "Date" = Some (Date r) /\
  csv_row r !! "Name" = Some (Name r) /\
  csv_row r !! "Price" = Some (number_toString (Price r)) /\
  csv_row r !! "Currency" = Some (Currency r) /\
  csv_row r !! "Price in Main" = Some (Price_in_Main r) /\
  csv_row r !! "Category" = Some (Category r) /\
  csv_row r !! "Payment Method" = Some (Payment_Method r).
Proof. unfold csv_row. repeat split; by simplify_map_eq. Qed.

Lemma truthy_str_spec (s : string) : truthy_str s = true <-> s <> "".
Proof. destruct s; simpl; split; done. Qed.

Lemma truthy_prop_spec (v : option string) :
  truthy_prop v = true <-> exists s, v = Some s /\ s <> "".
Proof.
  destruct v as [s|]; simpl.
  - rewrite truthy_str_spec. split.
    + intros Hs. by exists s.
    + by intros (s' & [= <-] & Hs).
  - split; [discriminate | by intros (s' & [=] & _)].
Qed.

(** A row is accepted exactly when its Date, Name and Price cells are
    present and not empty. *)
Lemma row_accepted_iff (row : gmap string string) :
  row_accepted row = true <->
  (exists d, row !! "Date" = Some d /\ d <> "") /\
  (exists n, row !! "Name" = Some n /\ n <> "") /\
  (exists p, row !! "Price" = Some p /\ p <> "").
Proof.
  unfold row_accepted. rewrite !andb_true_iff, !truthy_prop_spec. tauto.
Qed.



End CsvAdapter.

(** ** Import: the value of [priceInMain] *)

(** [Examples.gum_row] is the row the application itself exports for
    [Examples.gum]. *)
Example gum_row_exported :
  Local.csv_written_then_parsed (Local.exportToCSV (Examples.state_of [Examples.gum] "EUR"))
  = [Examples.gum_row].
Proof. by_evaluation. Qed.

(** C9 fails on a row whose "Price in Main" cell reads as the number 0: the
    row is accepted and the cell is a number, but the record's [priceInMain]
    is the price, 0.5, and not 0. *)
Theorem import_zero_price_in_main :
  Local.row_accepted Examples.gum_row = true /\
  parseFloat (ToString_prop (Examples.gum_row !! "Price in Main")) = num_of_Z 0 /\
  map Local.priceInMain
      (Local.imported Examples.env0 (Examples.state_of [] "EUR") [Examples.gum_row])
  = [Num (Q2Qc (1 # 2))].
Proof. by_evaluation. Qed.

(** The synced variant maps the row in the same way. *)
Example synced_row_with_zero_cell :
  map (fun t => (Synced.name t, Synced.price t, Synced.priceInMain t))
      (Synced.transactions
         (Synced.app
            (Synced.onSnapshot
               (Synced.importFromCSV SyncedExamples.env1 (Some [Examples.gum_row])
                  {| Synced.remote := ∅; Synced.app := SyncedExamples.signed_in |}))))
  = [("Gum", Num (Q2Qc (1 # 2)), Num (Q2Qc (1 # 2)))].
Proof. by_evaluation. Qed.




(** ** Export followed by import *)

Section RoundTrip.

Import Local.

Lemma or_str_empty (s : string) : or_str s "" = s.
Proof. by destruct s. Qed.

(** The text of a number that prints exactly is never empty. *)
Lemma number_toString_nonempty (x : number) :
  Spec.prints_exactly x = true -> number_toString x <> "".
Proof.
  intros Hx E. apply parseFloat_number_toString in Hx. rewrite E in Hx.
  destruct x; [discriminate | discriminate].
Qed.

Lemma Forall2_filter_imap {A B C : Type}
    (keep : A -> Prop) `{!forall x, Decision (keep x)}
    (acc : B -> Prop) `{!forall y, Decision (acc y)}
    (g : A -> B) (R : A -> C -> Prop) (l : list A) (f : nat -> B -> C) :
  (forall x, x ∈ l -> acc (g x) <-> keep x) ->
  (forall i x, x ∈ l -> keep x -> R x (f i (g x))) ->
  Forall2 R (filter keep l) (imap f (filter acc (map g l))).
Proof.
  revert f. induction l as [|x l IH]; intros f Hacc HR; [constructor |].
  cbn [map]. rewrite !filter_cons.
  assert (Hx : x ∈ x :: l) by left.
  assert (IH' : forall f', (forall i y, y ∈ l -> keep y -> R y (f' i (g y))) ->
                           Forall2 R (filter keep l) (imap f' (filter acc (map g l)))).
  { intros f' Hf'. apply IH; [| exact Hf'].
    intros y Hy. apply Hacc. by right. }
  destruct (decide (keep x)) as [Hk|Hk].
  - rewrite decide_True by (by apply Hacc). cbn [imap]. constructor.
    + by apply HR.
    + apply IH'. intros i y Hy. apply HR. by right.
  - rewrite decide_False by (by rewrite Hacc). apply IH'.
    intros i y Hy. apply HR. by right.
Qed.

(** C1 as stated fails: 100 USD booked as 1000/11 EUR come back from the
    file with [priceInMain] 90.91. *)
Lemma roundtrip_rounds_counterexample :
  map priceInMain (transactions (Examples.state_of [Examples.taxi] "EUR"))
  = [Num (Q2Qc (1000 # 11))] /\
  map priceInMain
      (imported Examples.env0 (Examples.state_of [Examples.taxi] "EUR")
         (csv_written_then_parsed (exportToCSV (Examples.state_of [Examples.taxi] "EUR"))))
  = [Num (Q2Qc (9091 # 100))] /\
  Num (Q2Qc (1000 # 11)) <> Num (Q2Qc (9091 # 100)).
Proof. by_evaluation. Qed.

(** C1 (as amended): with the main currency unchanged, importing what was
    exported gives, for the records whose date and name are not empty (the
    others are dropped), in the same order, records with the same date,
    name, price, category and payment method, the same currency (the main
    currency where it was empty), and a [priceInMain] rounded to two
    decimals, provided the prices print exactly, and for [priceInMain]
    provided it is below 10^21 in magnitude and does not round to zero. *)
Theorem export_import_roundtrip (env : Env) (st : State) :
  Forall (fun t => Spec.prints_exactly (price t) = true) (transactions st) ->
  Forall2
    (fun t t' =>
       date t' = date t /\ name t' = name t /\ price t' = price t /\
       currency t' = or_str (currency t) (mainCurrency st) /\
       category t' = category t /\ paymentMethod t' = paymentMethod t /\
       forall q, priceInMain t = Num q ->
                 (- pow10 21 < q)%Qc -> (q < pow10 21)%Qc ->
                 Spec.round2 q <> 0%Qc ->
                 priceInMain t' = Num (Spec.round2 q))
    (filter (fun t => date t <> "" /\ name t <> "") (transactions st))
    (imported env st (csv_written_then_parsed (exportToCSV st))).
Proof.
  intros Hprints. unfold imported, csv_written_then_parsed, exportToCSV.
  rewrite map_map.
  apply (Forall2_filter_imap _ (fun row => row_accepted row = true)).
  - intros t Ht. rewrite Forall_forall in Hprints. specialize (Hprints t Ht).
    rewrite row_accepted_iff.
    destruct (csv_row_lookup
                {| Date := date t; Name := name t; Price := price t;
                   Currency := currency t; Price_in_Main := toFixed2 (priceInMain t);
                   Main_Currency := mainCurrency st; Category := category t;
                   Payment_Method := paymentMethod t |})
      as (-> & -> & -> & _). cbn [Date Name Price].
    apply number_toString_nonempty in Hprints. split.
    + intros ((d & [= <-] & Hd) & (n & [= <-] & Hn) & _). by split.
    + intros [Hd Hn]. repeat split; eexists; (split; [reflexivity | assumption]).
  - intros i t Ht [Hd Hn]. rewrite Forall_forall in Hprints. specialize (Hprints t Ht).
    cbn [row_to_transaction date name price currency category paymentMethod priceInMain].
    destruct (csv_row_lookup
                {| Date := date t; Name := name t; Price := price t;
                   Currency := currency t; Price_in_Main := toFixed2 (priceInMain t);
                   Main_Currency := mainCurrency st; Category := category t;
                   Payment_Method := paymentMethod t |})
      as (-> & -> & -> & -> & -> & -> & ->).
    cbn [Date Name Price Currency Price_in_Main Category Payment_Method
         ToString_prop or_prop].
    rewrite parseFloat_number_toString by exact Hprints. rewrite !or_str_empty.
    repeat split.
    intros q Hq Hlo Hhi Hr. rewrite Hq, parseFloat_toFixed2 by assumption.
    unfold or_num. cbn [truthy_num]. by rewrite bool_decide_eq_false_2.
Qed.

Lemma export_import_roundtrip_witness :
  Forall2
    (fun t t' =>
       date t' = date t /\ name t' = name t /\ price t' = price t /\
       currency t' = or_str (currency t) (mainCurrency Examples.three_records) /\
       category t' = category t /\ paymentMethod t' = paymentMethod t /\
       forall q, priceInMain t = Num q ->
                 (- pow10 21 < q)%Qc -> (q < pow10 21)%Qc ->
                 Spec.round2 q <> 0%Qc ->
                 priceInMain t' = Num (Spec.round2 q))
    (filter (fun t => date t <> "" /\ name t <> "") (transactions Examples.three_records))
    (imported Examples.env0 Examples.three_records
       (csv_written_then_parsed (exportToCSV Examples.three_records))).
Proof.
  apply (export_import_roundtrip Examples.env0 Examples.three_records).
  apply (bool_decide_eq_true_1 _). vm_compute. reflexivity.
Defined.

End RoundTrip.

(** * Further properties *)

(** ** The converter between two currencies *)

Section ConverterAlgebra.

Import Local.





End ConverterAlgebra.

(** ** The aggregator under changes of the store *)

Section AggregatorMore.

Import Local More.

Lemma totalSpent_sum (st : State) : totalSpent st = Spec.sum_priceInMain (transactions st).
Proof. unfold totalSpent. by rewrite fold_left_num_add, num_add_0_l. Qed.

Lemma sum_priceInMain_app (l1 l2 : list Transaction) :
  Spec.sum_priceInMain (l1 ++ l2)
  = num_add (Spec.sum_priceInMain l1) (Spec.sum_priceInMain l2).
Proof.
  induction l1 as [|t l1 IH]; cbn [app Spec.sum_priceInMain].
  - by rewrite num_add_0_l.
  - by rewrite IH, num_add_assoc.
Qed.

Lemma sum_priceInMain_is_num (ts : list Transaction) :
  is_num (Spec.sum_priceInMain ts) <-> Forall (fun t => is_num (priceInMain t)) ts.
Proof.
  induction ts as [|t ts IH]; cbn [Spec.sum_priceInMain].
  - split; [constructor | intros _; by eexists].
  - rewrite Forall_cons, <- IH. unfold is_num. split.
    + intros [q Hq]. destruct (priceInMain t), (Spec.sum_priceInMain ts);
        try discriminate. split; by eexists.
    + intros [[x ->] [y ->]]. by eexists.
Qed.

Lemma avg_is_num (st : State) : is_num (avgTransaction st) <-> is_num (totalSpent st).
Proof.
  destruct (decide (transactions st = [])) as [E|E].
  - unfold avgTransaction. rewrite totalSpent_sum, E. cbn.
    split; intros _; by eexists.
  - destruct (average_divisor_nonzero st E) as (r & Hr & Hr0).
    unfold avgTransaction. rewrite Hr.
    destruct (transactions st) as [|t ts]; [done |]. cbn [length Nat.ltb Nat.leb].
    unfold is_num. destruct (totalSpent st) as [x|]; cbn [num_div].
    + destruct (decide (r = 0%Qc)); [done |]. split; intros _; by eexists.
    + split; intros [? [=]].
Qed.




(** X6: a submit that adds a record (no edit target, name and price
    filled) raises the total by the price converted to the main currency. *)
Theorem submit_raises_total (env : Env) (st : State) :
  editingTransaction st = None ->
  fd_name (formData st) <> "" -> fd_price (formData st) <> "" ->
  totalSpent (handleAddTransaction env st)
  = num_add (totalSpent st)
      (convertToMainCurrency st (parseFloat (fd_price (formData st)))
         (fd_currency (formData st))).
Proof.
  intros He Hn Hp. rewrite !totalSpent_sum. unfold handleAddTransaction.
  destruct (fd_name (formData st)); [done |]. destruct (fd_price (formData st)) eqn:E; [done |].
  cbn [truthy_str negb orb]. rewrite He.
  cbn [resetForm set_transactions transactions].
  rewrite sum_priceInMain_app. cbn [Spec.sum_priceInMain newTransaction priceInMain].
  by rewrite num_add_0_r, E.
Qed.

End AggregatorMore.

(** ** The per-category and per-currency series *)

Section SeriesMore.

Import Local More Aux.



(** X7: records whose category is empty or not one of the six known
    categories have no part in the per-category series: leaving them out of
    the store gives the same series. *)
Theorem uncategorised_records_not_charted (st : State) :
  spendingByCategory
    (set_transactions (filter (fun t => category t ∈ categories) (transactions st)) st)
  = spendingByCategory st.
Proof.
  unfold spendingByCategory. cbn [set_transactions transactions]. f_equal.
  apply map_ext_in. intros cat Hcat. apply list_elem_of_In in Hcat. do 2 f_equal.
  rewrite list_filter_filter. apply list_filter_iff. intros t. split.
  - by intros [? _].
  - intros Ht. split; [exact Ht | by rewrite Ht].
Qed.


Lemma sum_amounts_app (l1 l2 : list (string * number)) :
  sum_amounts (l1 ++ l2) = num_add (sum_amounts l1) (sum_amounts l2).
Proof.
  induction l1 as [|e l1 IH]; cbn [app sum_amounts].
  - by rewrite num_add_0_l.
  - by rewrite IH, num_add_assoc.
Qed.









End SeriesMore.

(** ** The form and the store *)

Section FormMore.

Import Local More.

Lemma submit_accepted (env : Env) (st : State) :
  fd_name (formData st) <> "" -> fd_price (formData st) <> "" ->
  handleAddTransaction env st
  = resetForm env
      (set_transactions
         match editingTransaction st with
         | Some e =>
             map (fun t => if bool_decide (id t = id e) then newTransaction env st else t)
               (transactions st)
         | None => transactions st ++ [newTransaction env st]
         end st).
Proof.
  intros Hn Hp. unfold handleAddTransaction.
  destruct (fd_name (formData st)); [done |]. by destruct (fd_price (formData st)).
Qed.

(** X10: a second submit right after an accepted one is rejected: the
    accepted submit empties the form, so the second one only raises the
    alert and the store stays as the first left it. *)
Theorem second_submit_rejected (env env' : Env) (st : State) :
  fd_name (formData st) <> "" -> fd_price (formData st) <> "" ->
  transactions (handleAddTransaction env' (handleAddTransaction env st))
  = transactions (handleAddTransaction env st) /\
  alerts (handleAddTransaction env' (handleAddTransaction env st))
  = alerts st ++ ["Please fill in name and price"].
Proof.
  intros Hn Hp. rewrite (submit_accepted env st Hn Hp). split; reflexivity.
Qed.

(** X11: opening a record for editing and submitting the form unchanged
    keeps the record but for its [priceInMain], which becomes the converter's
    value under the current main currency; the other records are untouched.
    The record needs a non-empty id, creation time and name, and a price that
    prints exactly. *)
Theorem edit_without_change (env : Env) (st : State) (t : Transaction) :
  id t <> "" -> createdAt t <> "" -> name t <> "" ->
  Spec.prints_exactly (price t) = true ->
  transactions (handleAddTransaction env (handleEdit t st))
  = map (fun u => if bool_decide (id u = id t)
                  then with_priceInMain (convertToMainCurrency st (price t) (currency t)) t
                  else u)
        (transactions st).
Proof.
  intros Hid Hc Hn Hp.
  rewrite submit_accepted.
  - cbn [handleEdit editingTransaction resetForm set_transactions transactions].
    apply map_ext. intros u. destruct (bool_decide (id u = id t)); [| reflexivity].
    unfold newTransaction, with_priceInMain.
    cbn [handleEdit editingTransaction formData fd_date fd_name fd_price fd_currency
         fd_category fd_paymentMethod].
    rewrite parseFloat_number_toString by exact Hp. rewrite !or_str_empty.
    unfold or_str. destruct (id t); [done |]. destruct (createdAt t); [done |].
    reflexivity.
  - exact Hn.
  - cbn [handleEdit formData fd_price]. by apply number_toString_nonempty.
Qed.

(** X12: adding a record keeps the ids of the store distinct when the
    clock's value, which becomes the new id, is not yet an id of the store. *)
Theorem add_keeps_ids_unique (env : Env) (st : State) :
  NoDup (map id (transactions st)) ->
  editingTransaction st = None ->
  date_now env ∉ map id (transactions st) ->
  NoDup (map id (transactions (handleAddTransaction env st))).
Proof.
  intros Hnd He Hfresh. unfold handleAddTransaction.
  destruct (negb _ || negb _); [exact Hnd |].
  rewrite He. cbn [resetForm set_transactions transactions].
  rewrite map_app. apply NoDup_app. split; [exact Hnd |]. split.
  - intros i Hi. cbn [map newTransaction id]. rewrite He.
    rewrite list_elem_of_singleton. by intros ->.
  - cbn [map]. apply NoDup_singleton.
Qed.

(** X13: an edit submit keeps the list of ids of the store (so its
    length, order and uniqueness of ids), and changes no record at all when
    the edit target's id is no longer in the store. *)
Theorem edit_keeps_ids (env : Env) (st : State) (e : Transaction) :
  editingTransaction st = Some e -> id e <> "" ->
  map id (transactions (handleAddTransaction env st)) = map id (transactions st) /\
  (id e ∉ map id (transactions st) ->
   transactions (handleAddTransaction env st) = transactions st).
Proof.
  intros He Hid. unfold handleAddTransaction.
  destruct (negb _ || negb _); [done |].
  rewrite He. cbn [resetForm set_transactions transactions]. split.
  - rewrite map_map. apply map_ext. intros u.
    destruct (decide (id u = id e)) as [E|E].
    + rewrite bool_decide_eq_true_2 by exact E.
      cbn [newTransaction id]. rewrite He. by destruct (id e).
    + by rewrite bool_decide_eq_false_2.
  - intros Habs. rewrite <- (map_id (transactions st)) at 2.
    apply map_ext_in. intros u Hu. rewrite bool_decide_eq_false_2; [reflexivity |].
    intros E. apply Habs. rewrite <- E. apply list_elem_of_fmap.
    exists u. split; [reflexivity | by apply list_elem_of_In].
Qed.

(** X14: deleting an id twice is the same as deleting it once, deleting
    two ids gives the same state in either order, and deleting an id that is
    not in the store changes nothing. *)
Theorem delete_idempotent_commutes (st : State) (i j : string) :
  handleDelete true i (handleDelete true i st) = handleDelete true i st /\
  handleDelete true i (handleDelete true j st) = handleDelete true j (handleDelete true i st) /\
  (i ∉ map id (transactions st) -> handleDelete true i st = st).
Proof.
  unfold handleDelete, set_transactions. cbn [transactions mainCurrency exchangeRates
    showAddForm editingTransaction formData alerts].
  repeat split.
  - f_equal. rewrite list_filter_filter. apply list_filter_iff. tauto.
  - f_equal. rewrite !list_filter_filter. apply list_filter_iff. tauto.
  - intros Hi. rewrite filter_other_ids by exact Hi. by destruct st.
Qed.

(** X26: adding a record and then deleting the id it was given restores
    the list of records, when that id was not in the store before. *)
Theorem add_then_delete (env : Env) (st : State) :
  editingTransaction st = None ->
  fd_name (formData st) <> "" -> fd_price (formData st) <> "" ->
  date_now env ∉ map id (transactions st) ->
  transactions (handleDelete true (date_now env) (handleAddTransaction env st))
  = transactions st.
Proof.
  intros He Hn Hp Hfresh. rewrite (submit_accepted env st Hn Hp), He.
  cbn [handleDelete resetForm set_transactions transactions].
  rewrite filter_app, filter_other_ids by exact Hfresh.
  rewrite filter_cons, decide_False, filter_nil; [apply app_nil_r |].
  intros H. apply H. cbn [newTransaction id]. by rewrite He.
Qed.

End FormMore.

(** ** More on the CSV adapter *)

Section CsvMore.

Import Local More.

Lemma imported_elem (env : Env) (st : State) (rows : list (gmap string string))
    (t : Transaction) :
  t ∈ imported env st rows ->
  exists i row, row ∈ rows /\ row_accepted row = true /\ t = row_to_transaction env st i row.
Proof.
  unfold imported. intros Ht.
  apply elem_of_lookup_imap in Ht as (i & row & -> & Hrow).
  apply list_elem_of_lookup_2, list_elem_of_filter in Hrow as [Hacc Hin].
  by exists i, row.
Qed.

Lemma imported_fields (env : Env) (st : State) (rows : list (gmap string string)) :
  Forall (fun t => date t <> "" /\ name t <> "" /\ createdAt t = iso_now env)
         (imported env st rows).
Proof.
  apply Forall_forall. intros t Ht.
  apply imported_elem in Ht as (i & row & _ & Hacc & ->).
  apply row_accepted_iff in Hacc as ((d & Hd & Hd0) & (n & Hn & Hn0) & _).
  cbn [row_to_transaction date name createdAt]. rewrite Hd, Hn. by cbn.
Qed.


Lemma row_ignores_column (env : Env) (st : State) (k v : string) (row : gmap string string) :
  k ∉ import_columns ->
  row_accepted (<[k := v]> row) = row_accepted row /\
  forall i, row_to_transaction env st i (<[k := v]> row) = row_to_transaction env st i row.
Proof.
  intros Hk. unfold import_columns in Hk.
  repeat (apply not_elem_of_cons in Hk as [? Hk]).
  unfold row_accepted, row_to_transaction.
  rewrite !lookup_insert_ne by done. done.
Qed.

Lemma imap_filter_map {A B C : Type} (P : B -> Prop) `{!forall y, Decision (P y)}
    (g : A -> B) (h : A -> B) (l : list A) (f : nat -> B -> C) :
  (forall x, P (g x) <-> P (h x)) ->
  (forall i x, f i (g x) = f i (h x)) ->
  imap f (filter P (map g l)) = imap f (filter P (map h l)).
Proof.
  intros HP Hf. revert f Hf. induction l as [|x l IH]; intros f Hf; [reflexivity |].
  cbn [map]. rewrite !filter_cons.
  destruct (decide (P (g x))) as [Hg|Hg].
  - rewrite decide_True by (by apply HP). cbn [imap]. rewrite Hf. f_equal.
    apply IH. intros i y. apply Hf.
  - rewrite decide_False by (by rewrite <- HP). by apply IH.
Qed.

(** X16: the import reads only the columns Date, Name, Price, Currency,
    Price in Main, Category and Payment Method: setting any other column
    (such as Main Currency) in every row does not change the records made. *)
Theorem import_ignores_other_columns (env : Env) (st : State) (k v : string)
    (rows : list (gmap string string)) :
  k ∉ import_columns ->
  imported env st (map (insert k v) rows) = imported env st rows.
Proof.
  intros Hk. unfold imported. rewrite <- (map_id rows) at 2.
  apply imap_filter_map.
  - intros row. by rewrite (proj1 (row_ignores_column env st k v row Hk)).
  - intros i row. apply (row_ignores_column env st k v row Hk).
Qed.

(** X17: what an import makes of an export does not depend on the main
    currency under which it was exported: the Main Currency column is
    written but never read, so [priceInMain] is not reconverted. *)
Theorem export_main_currency_not_read (env : Env) (st st' : State) (m : string) :
  imported env st' (csv_written_then_parsed (exportToCSV (setMainCurrency m st)))
  = imported env st' (csv_written_then_parsed (exportToCSV st)).
Proof.
  unfold imported, csv_written_then_parsed, exportToCSV.
  cbn [setMainCurrency transactions mainCurrency]. rewrite !map_map.
  apply imap_filter_map.
  - intros t. unfold row_accepted, csv_row. by simplify_map_eq.
  - intros i t. unfold row_to_transaction, csv_row. by simplify_map_eq.
Qed.

(** X18: when every record of the store has a non-empty name, so it is
    after a submit, after an import and after a delete. *)
Theorem names_stay_nonempty (env : Env) (st : State) :
  Forall (fun t => name t <> "") (transactions st) ->
  Forall (fun t => name t <> "") (transactions (handleAddTransaction env st)) /\
  (forall rows, Forall (fun t => name t <> "")
                       (transactions (importFromCSV env (Some rows) st))) /\
  (forall b i, Forall (fun t => name t <> "") (transactions (handleDelete b i st))).
Proof.
  intros Hst. repeat split.
  - unfold handleAddTransaction.
    destruct (fd_name (formData st)) as [|c n] eqn:En; [exact Hst |].
    destruct (fd_price (formData st)); [exact Hst |].
    cbn [truthy_str negb orb resetForm set_transactions transactions].
    assert (Hnt : name (newTransaction env st) <> "").
    { cbn [newTransaction name]. by rewrite En. }
    destruct (editingTransaction st).
    + apply Forall_fmap. eapply Forall_impl; [exact Hst |].
      intros u Hu. unfold compose. by destruct (bool_decide _).
    + apply Forall_app. split; [exact Hst | by constructor].
  - intros rows.
    cbn [importFromCSV alert set_transactions transactions].
    apply Forall_app. split; [exact Hst |].
    eapply Forall_impl; [apply imported_fields |]. by intros t (_ & ? & _).
  - intros b i. unfold handleDelete. destruct b; [| exact Hst].
    cbn [set_transactions transactions]. apply Forall_forall. intros t Ht.
    apply list_elem_of_filter in Ht as [_ Ht]. rewrite Forall_forall in Hst. by apply Hst.
Qed.

(** X19: importing an accepted row whose Price cell is not a number and
    whose "Price in Main" cell is missing, zero or not a number makes the
    total and the average NaN. *)
Theorem unreadable_price_spoils_total (env : Env) (st : State)
    (rows : list (gmap string string)) (row : gmap string string) :
  row ∈ rows -> row_accepted row = true ->
  parseFloat (ToString_prop (row !! "Price")) = NaN ->
  truthy_num (parseFloat (ToString_prop (row !! "Price in Main"))) = false ->
  totalSpent (importFromCSV env (Some rows) st) = NaN /\
  avgTransaction (importFromCSV env (Some rows) st) = NaN.
Proof.
  intros Hin Hacc Hprice Hmain.
  set (st' := importFromCSV env (Some rows) st).
  assert (Ht : ~ is_num (totalSpent st')).
  { rewrite totalSpent_sum, sum_priceInMain_is_num, Forall_forall.
    assert (Hrow : row ∈ filter (fun r => row_accepted r = true) rows)
      by (by apply list_elem_of_filter).
    apply list_elem_of_lookup_1 in Hrow as [i Hi].
    intros Hall. destruct (Hall (row_to_transaction env st i row)) as [q Hq].
    - subst st'. cbn [importFromCSV alert set_transactions transactions].
      apply elem_of_app. right. unfold imported.
      apply elem_of_lookup_imap. by exists i, row.
    - cbn [row_to_transaction priceInMain] in Hq. unfold or_num in Hq.
      rewrite Hmain, Hprice in Hq. discriminate. }
  assert (Ha : ~ is_num (avgTransaction st')) by (by rewrite avg_is_num).
  split.
  - destruct (totalSpent st'); [| reflexivity]. destruct Ht. by eexists.
  - destruct (avgTransaction st'); [| reflexivity]. destruct Ha. by eexists.
Qed.

End CsvMore.

(** ** The synced variant: writes and snapshots *)

Section SyncedMore.

Import Synced More.

Lemma snapshot_listed (uid : string) (db : gmap string Doc) :
  snapshot uid db = omap (listed uid) (map_to_list db).
Proof.
  unfold snapshot. apply list_omap_ext, Forall_Forall2_diag, Forall_forall.
  intros [i d] _. unfold listed, doc_transaction. cbn [fst snd].
  by rewrite !or_str_empty.
Qed.

Lemma snapshot_elem (uid : string) (db : gmap string Doc) (t : Transaction) :
  t ∈ snapshot uid db <->
  exists i d, db !! i = Some d /\ d_userId d = uid /\ t = doc_transaction i d.
Proof.
  rewrite snapshot_listed, list_elem_of_omap. split.
  - intros ([i d] & Hin & Hl). apply elem_of_map_to_list in Hin.
    unfold listed in Hl. cbn [fst snd] in Hl.
    destruct (decide (d_userId d = uid)) as [E|E].
    + rewrite bool_decide_eq_true_2 in Hl by exact E. injection Hl as <-. by exists i, d.
    + by rewrite bool_decide_eq_false_2 in Hl.
  - intros (i & d & Hd & Hu & ->). exists (i, d). split; [by apply elem_of_map_to_list |].
    unfold listed. cbn [fst snd]. by rewrite bool_decide_eq_true_2.
Qed.

Lemma listed_id (uid : string) (x : string * Doc) (t : Transaction) :
  listed uid x = Some t -> id t = fst x.
Proof.
  unfold listed. destruct (bool_decide _); [| discriminate]. by intros [= <-].
Qed.

Lemma omap_listed_NoDup (uid : string) (l : list (string * Doc)) :
  NoDup (map fst l) -> NoDup (map id (omap (listed uid) l)).
Proof.
  induction l as [|x l IH]; [constructor |].
  cbn [map]. rewrite NoDup_cons. intros [Hx Hl].
  change (omap (listed uid) (x :: l))
    with (match listed uid x with
          | Some y => y :: omap (listed uid) l
          | None => omap (listed uid) l
          end).
  destruct (listed uid x) as [t|] eqn:E; [| by apply IH].
  cbn [map]. apply NoDup_cons. split; [| by apply IH].
  rewrite (listed_id _ _ _ E). intros Hin. apply Hx.
  apply list_elem_of_fmap in Hin as (u & Hu & Hin).
  apply list_elem_of_omap in Hin as (y & Hy & Hl').
  apply list_elem_of_fmap. exists y. split; [| exact Hy].
  by rewrite Hu, (listed_id _ _ _ Hl').
Qed.

(** X20: after a snapshot the signed-in user sees exactly the documents of
    the collection that carry that user's id, each as one transaction whose
    id is the document's, and the ids listed are distinct. *)
Theorem snapshot_shows_own_documents (w : World) (uid : string) :
  user (app w) = Some uid ->
  (forall t, t ∈ transactions (app (onSnapshot w)) <->
     exists i d, remote w !! i = Some d /\ d_userId d = uid /\ t = doc_transaction i d) /\
  NoDup (map id (transactions (app (onSnapshot w)))).
Proof.
  intros Hu. unfold onSnapshot. rewrite Hu.
  cbn [app set_transactions transactions]. split.
  - intros t. apply snapshot_elem.
  - rewrite snapshot_listed. apply omap_listed_NoDup, NoDup_fst_map_to_list.
Qed.

(** X21: in the synced variant a submit writes nothing when nobody is
    signed in or the name or the price is empty: the collection is unchanged
    and the alert is raised; and an import does nothing when nobody is
    signed in. *)
Theorem no_write_without_user_or_fields (env : Env) (w : World) :
  user (app w) = None \/ fd_name (formData (app w)) = "" \/ fd_price (formData (app w)) = "" ->
  handleAddTransaction env w
  = {| remote := remote w; app := alert "Please fill in name and price" (app w) |} /\
  (user (app w) = None -> forall data, importFromCSV env data w = w).
Proof.
  intros H. split.
  - unfold handleAddTransaction. cbv zeta.
    destruct (user (app w)) as [uid|]; [| reflexivity].
    destruct H as [H|[H|H]]; [discriminate | |]; rewrite H; [reflexivity |].
    by destruct (fd_name (formData (app w))).
  - intros Hu data. unfold importFromCSV. rewrite Hu. by destruct data.
Qed.

(** X22: an added document (under an id new to the collection) shows up
    in the snapshot of the user who added it and leaves the snapshot of
    every other user as it was, up to order. *)
Theorem add_reaches_only_own_snapshot (env : Env) (w : World) (uid : string) :
  user (app w) = Some uid ->
  editingTransaction (app w) = None ->
  fd_name (formData (app w)) <> "" -> fd_price (formData (app w)) <> "" ->
  remote w !! new_doc_id env = None ->
  snapshot uid (remote (handleAddTransaction env w))
  ≡ₚ doc_transaction (new_doc_id env) (transactionData env uid (app w))
     :: snapshot uid (remote w) /\
  (forall v, v <> uid ->
     snapshot v (remote (handleAddTransaction env w)) ≡ₚ snapshot v (remote w)).
Proof.
  intros Hu He Hn Hp Hfresh. unfold handleAddTransaction. cbv zeta. rewrite Hu, He.
  destruct (fd_name (formData (app w))); [done |].
  destruct (fd_price (formData (app w))) eqn:Ep; [done |].
  cbn [truthy_str negb orb remote]. unfold addDoc.
  assert (Hins : forall v x,
            omap (listed v) (map_to_list (<[new_doc_id env := x]> (remote w)))
            ≡ₚ match listed v (new_doc_id env, x) with
               | Some y => y :: omap (listed v) (map_to_list (remote w))
               | None => omap (listed v) (map_to_list (remote w))
               end).
  { intros v x. by rewrite (map_to_list_insert _ _ _ Hfresh). }
  split; [| intros v Hv]; rewrite !snapshot_listed, Hins;
    unfold listed at 1; cbn [fst snd transactionData d_userId].
  - by rewrite bool_decide_eq_true_2.
  - rewrite bool_decide_eq_false_2 by (by intros ->). reflexivity.
Qed.

(** X23: an edit submit for a document that is no longer in the
    collection fails: the collection is unchanged, the error alert is raised
    and the form stays as it is, with its edit target. *)
Theorem edit_of_missing_document (env : Env) (w : World) (uid : string) (e : Transaction) :
  user (app w) = Some uid ->
  editingTransaction (app w) = Some e ->
  fd_name (formData (app w)) <> "" -> fd_price (formData (app w)) <> "" ->
  remote w !! id e = None ->
  handleAddTransaction env w
  = {| remote := remote w;
       app := alert "Error saving transaction. Please try again." (app w) |}.
Proof.
  intros Hu He Hn Hp Hd. unfold handleAddTransaction. cbv zeta. rewrite Hu, He.
  destruct (fd_name (formData (app w))); [done |].
  destruct (fd_price (formData (app w))); [done |].
  cbn [truthy_str negb orb]. unfold updateDoc. by rewrite Hd.
Qed.

(** X24: after a confirmed delete the snapshot lists exactly the
    transactions listed before whose id is not the deleted one. *)
Theorem synced_delete (w : World) (uid i : string) (t : Transaction) :
  t ∈ snapshot uid (remote (handleDelete true i w)) <->
  t ∈ snapshot uid (remote w) /\ id t <> i.
Proof.
  cbn [handleDelete remote]. unfold deleteDoc. rewrite !snapshot_elem. split.
  - intros (j & d & Hd & Hu & ->). apply lookup_delete_Some in Hd as [Hne Hd].
    split; [by exists j, d | by cbn; congruence].
  - intros [(j & d & Hd & Hu & ->) Hne]. exists j, d. split; [| done].
    apply lookup_delete_Some. split; [by cbn in Hne; congruence | exact Hd].
Qed.

Lemma fold_addDoc_lookup (P : Doc -> Prop) (l : list (string * Doc)) (db : gmap string Doc)
    (j : string) (d : Doc) :
  Forall (fun x => P (snd x)) l ->
  fold_left (fun db '(i, x) => addDoc i x db) l db !! j = Some d ->
  db !! j = Some d \/ P d.
Proof.
  intros Hl. revert db. induction Hl as [|[i x] l Hx _ IH]; intros db; [by left |].
  cbn [fold_left]. intros H. apply IH in H as [H|H]; [| by right].
  unfold addDoc in H. apply lookup_insert_Some in H as [[_ <-]|[_ H]]; [by right | by left].
Qed.

(** X25: every document found in the collection after an import either
    was there before, unchanged, or belongs to the importing user and has a
    non-empty date and name. *)
Theorem import_writes_own_documents (env : Env) (w : World) (uid : string)
    (rows : list (gmap string string)) (j : string) (d : Doc) :
  user (app w) = Some uid ->
  remote (importFromCSV env (Some rows) w) !! j = Some d ->
  remote w !! j = Some d \/
  (d_userId d = uid /\ d_date d <> "" /\ d_name d <> "").
Proof.
  intros Hu. unfold importFromCSV. rewrite Hu. cbn [remote].
  apply (fold_addDoc_lookup
           (fun d => d_userId d = uid /\ d_date d <> "" /\ d_name d <> "")).
  apply Forall_forall. intros [i x] Hx. cbn [snd].
  apply elem_of_lookup_imap in Hx as (n & row & [= -> ->] & Hrow).
  apply list_elem_of_lookup_2, list_elem_of_filter in Hrow as [Hacc _].
  unfold row_accepted in Hacc. rewrite !andb_true_iff, !truthy_prop_spec in Hacc.
  destruct Hacc as [[(dt & Hd & Hd0) (nm & Hn & Hn0)] _].
  cbn [row_to_doc d_userId d_date d_name]. rewrite Hd, Hn. by cbn.
Qed.

End SyncedMore.

(** ** Sorting by date *)

Section SortFacts.

Import More.

Context {A : Type} (cmp : A -> A -> number) (key : A -> number).
Hypothesis cmp_key : forall x y, cmp x y = num_sub (key x) (key y).

Lemma sort_insert_perm (x : A) (l : list A) : sort_insert cmp x l ≡ₚ x :: l.
Proof.
  induction l as [|y l IH]; [reflexivity |]. cbn [sort_insert].
  destruct (cmp x y) as [v|]; [| reflexivity].
  destruct (bool_decide (v <= 0)%Qc); [reflexivity |].
  rewrite IH. apply Permutation_swap.
Qed.

Lemma sort_perm (l : list A) : foldr (sort_insert cmp) [] l ≡ₚ l.
Proof.
  induction l as [|x l IH]; [reflexivity |]. cbn [foldr].
  by rewrite sort_insert_perm, IH.
Qed.

Lemma key_le_trans (x y z : A) : key_le key x y -> key_le key y z -> key_le key x z.
Proof.
  intros (a & b & Ha & Hb & Hab) (b' & c & Hb' & Hc & Hbc).
  rewrite Hb in Hb'. injection Hb' as <-.
  exists a, c. repeat split; try assumption. by eapply Qcle_trans.
Qed.

Lemma sort_insert_sorted (x : A) (l : list A) :
  is_num (key x) -> Forall (fun y => is_num (key y)) l ->
  StronglySorted (key_le key) l ->
  StronglySorted (key_le key) (sort_insert cmp x l).
Proof.
  intros [a Ha] Hl Hs. induction Hs as [|y l Hs IH Hy]; cbn [sort_insert].
  - repeat constructor.
  - apply Forall_cons in Hl as [[b Hb] Hl].
    rewrite cmp_key, Ha, Hb. cbn [num_sub].
    destruct (decide (a - b <= 0)%Qc) as [Hle|Hgt].
    + rewrite bool_decide_eq_true_2 by exact Hle.
      assert (Hxy : key_le key x y).
      { exists a, b. repeat split; try assumption.
        apply (Qcplus_le_mono_r _ _ (- b)%Qc). rewrite Qcplus_opp_r. exact Hle. }
      constructor; [by constructor |]. constructor; [exact Hxy |].
      eapply Forall_impl; [exact Hy |]. intros z Hz. by eapply key_le_trans.
    + rewrite bool_decide_eq_false_2 by exact Hgt.
      constructor; [by apply IH |].
      rewrite sort_insert_perm. constructor; [| exact Hy].
      exists b, a. repeat split; try assumption.
      apply Qcnot_le_lt, Qclt_le_weak in Hgt.
      apply (Qcplus_le_mono_r _ _ (- b)%Qc). rewrite Qcplus_opp_r. exact Hgt.
Qed.

Lemma sort_sorted (l : list A) :
  Forall (fun y => is_num (key y)) l ->
  StronglySorted (key_le key) (foldr (sort_insert cmp) [] l).
Proof.
  induction 1 as [|x l Hx Hl IH]; cbn [foldr]; [constructor |].
  apply sort_insert_sorted; [exact Hx | | exact IH].
  by rewrite sort_perm.
Qed.

Lemma Array_sort_defined (l : list A) :
  (exists l', Array_sort cmp l = Some l') <-> Forall (fun y => is_num (key y)) l.
Proof.
  unfold Array_sort.
  destruct (forallb _ l) eqn:E.
  - split; [intros _ | intros _; by eexists].
    rewrite forallb_forall in E. apply Forall_forall. intros x Hx.
    apply list_elem_of_In in Hx.
    specialize (E x Hx). rewrite forallb_forall in E. specialize (E x Hx).
    apply bool_decide_eq_true in E. rewrite cmp_key in E.
    destruct (key x) as [a|]; [by eexists | done].
  - split; [by intros [? [=]] |]. intros Hall. exfalso.
    apply not_true_iff_false in E. apply E.
    apply forallb_forall. intros x Hx. apply forallb_forall. intros y Hy.
    apply bool_decide_eq_true. rewrite cmp_key.
    rewrite Forall_forall in Hall.
    destruct (Hall x) as [a ->]; [by apply list_elem_of_In |].
    destruct (Hall y) as [b ->]; [by apply list_elem_of_In |]. done.
Qed.

Lemma Array_sort_spec (l l' : list A) :
  Array_sort cmp l = Some l' ->
  l' ≡ₚ l /\ StronglySorted (key_le key) l'.
Proof.
  intros H. assert (Hall : Forall (fun y => is_num (key y)) l).
  { apply Array_sort_defined. by eexists. }
  unfold Array_sort in H. destruct (forallb _ l); [| discriminate].
  injection H as <-. split; [apply sort_perm | by apply sort_sorted].
Qed.

End SortFacts.

Section DateSeries.

Import Local More Aux.







Lemma StronglySorted_impl {B : Type} (R R' : B -> B -> Prop) (l : list B) :
  (forall x y, R x y -> R' x y) -> StronglySorted R l -> StronglySorted R' l.
Proof.
  intros HR. induction 1 as [|x l _ IH Hx]; constructor; [exact IH |].
  eapply Forall_impl; [exact Hx |]. intros y. apply HR.
Qed.

Lemma later_first_key (getTime : string -> number) (a b : Transaction) :
  num_sub (getTime (date b)) (getTime (date a))
  = num_sub (num_neg (getTime (date a))) (num_neg (getTime (date b))).
Proof.
  destruct (getTime (date a)), (getTime (date b)); cbn; try reflexivity.
  f_equal. ring.
Qed.


Lemma transactions_by_date_defined (getTime : string -> number) (st : State) :
  Forall (fun t => is_num (getTime (date t))) (transactions st) ->
  exists l, transactions_by_date getTime st = Some l.
Proof.
  intros H. unfold transactions_by_date.
  apply (Array_sort_defined _ (fun t => num_neg (getTime (date t))));
    [intros x y; apply later_first_key |].
  eapply Forall_impl; [exact H |]. intros t [q Hq]. rewrite Hq. by eexists.
Qed.


(** X28: when the date of every record has a time, the transactions view
    lists every record of the store exactly once, latest date first. *)
Theorem transactions_by_date_sorted (getTime : string -> number) (st : State) :
  Forall (fun t => is_num (getTime (date t))) (transactions st) ->
  exists l, transactions_by_date getTime st = Some l /\
    l ≡ₚ transactions st /\
    StronglySorted (fun a b => not_later getTime (date b) (date a)) l.
Proof.
  intros Hall. destruct (transactions_by_date_defined getTime st Hall) as [l H].
  exists l. split; [exact H |].
  unfold transactions_by_date in H.
  apply (Array_sort_spec _ (fun t => num_neg (getTime (date t)))) in H as [Hp Hs];
    [| intros x y; apply later_first_key].
  split; [exact Hp |]. eapply StronglySorted_impl; [| exact Hs].
  intros x y (a & b & Ha & Hb & Hab). unfold not_later.
  destruct (getTime (date x)) as [u|]; [| discriminate].
  destruct (getTime (date y)) as [v|]; [| discriminate].
  injection Ha as <-. injection Hb as <-. exists v, u.
  repeat split. by apply Qcopp_le_compat in Hab; rewrite !Qcopp_involutive in Hab.
Qed.

End DateSeries.

(** * Instances *)

(** Each property that has a premise, at a concrete input. *)

Section Instances.

Import More Examples SyncedExamples MoreExamples.



Lemma submit_raises_total_witness :
  Local.totalSpent (Local.handleAddTransaction env0 dinner_state)
  = num_add (Local.totalSpent dinner_state)
      (Local.convertToMainCurrency dinner_state
         (parseFloat (Local.fd_price (Local.formData dinner_state)))
         (Local.fd_currency (Local.formData dinner_state))).
Proof.
  apply (submit_raises_total env0 dinner_state); [reflexivity | by_evaluation | by_evaluation].
Defined.


Lemma second_submit_rejected_witness :
  Local.transactions (Local.handleAddTransaction env0 (Local.handleAddTransaction env0 dinner_state))
  = Local.transactions (Local.handleAddTransaction env0 dinner_state) /\
  Local.alerts (Local.handleAddTransaction env0 (Local.handleAddTransaction env0 dinner_state))
  = Local.alerts dinner_state ++ ["Please fill in name and price"].
Proof.
  apply (second_submit_rejected env0 env0 dinner_state); by_evaluation.
Defined.

Lemma edit_without_change_witness :
  Local.transactions (Local.handleAddTransaction env0 (Local.handleEdit taxi three_records))
  = map (fun u => if bool_decide (Local.id u = Local.id taxi)
                  then with_priceInMain
                         (Local.convertToMainCurrency three_records
                            (Local.price taxi) (Local.currency taxi)) taxi
                  else u)
        (Local.transactions three_records).
Proof.
  apply (edit_without_change env0 three_records taxi);
    [by_evaluation | by_evaluation | by_evaluation | vm_compute; reflexivity].
Defined.

Lemma add_keeps_ids_unique_witness :
  NoDup (map Local.id (Local.transactions (Local.handleAddTransaction env0 dinner_state))).
Proof.
  apply (add_keeps_ids_unique env0 dinner_state);
    [by_evaluation | reflexivity | by_evaluation].
Defined.

Lemma edit_keeps_ids_witness :
  map Local.id
    (Local.transactions (Local.handleAddTransaction env0 (Local.handleEdit taxi three_records)))
  = map Local.id (Local.transactions (Local.handleEdit taxi three_records)).
Proof.
  apply (edit_keeps_ids env0 (Local.handleEdit taxi three_records) taxi);
    [reflexivity | by_evaluation].
Defined.

Lemma delete_idempotent_commutes_witness :
  Local.handleDelete true "9" three_records = three_records.
Proof.
  apply (delete_idempotent_commutes three_records "9" "9"). by_evaluation.
Defined.

Lemma add_then_delete_witness :
  Local.transactions
    (Local.handleDelete true (Local.date_now env0) (Local.handleAddTransaction env0 dinner_state))
  = Local.transactions dinner_state.
Proof.
  apply (add_then_delete env0 dinner_state);
    [reflexivity | by_evaluation | by_evaluation | by_evaluation].
Defined.

Lemma import_ignores_other_columns_witness :
  Local.imported env0 three_records (map (insert "Main Currency" "USD") [gum_row; taxi_row])
  = Local.imported env0 three_records [gum_row; taxi_row].
Proof.
  apply (import_ignores_other_columns env0 three_records "Main Currency" "USD").
  by_evaluation.
Defined.

Lemma names_stay_nonempty_witness :
  Forall (fun t => Local.name t <> "")
    (Local.transactions (Local.handleAddTransaction env0 dinner_state)) /\
  (forall rows, Forall (fun t => Local.name t <> "")
                  (Local.transactions (Local.importFromCSV env0 (Some rows) dinner_state))) /\
  (forall b i, Forall (fun t => Local.name t <> "")
                  (Local.transactions (Local.handleDelete b i dinner_state))).
Proof.
  apply (names_stay_nonempty env0 dinner_state). by_evaluation.
Defined.

Lemma unreadable_price_spoils_total_witness :
  Local.totalSpent (Local.importFromCSV env0 (Some [taxi_row; museum_row]) three_records) = NaN /\
  Local.avgTransaction (Local.importFromCSV env0 (Some [taxi_row; museum_row]) three_records) = NaN.
Proof.
  apply (unreadable_price_spoils_total env0 three_records [taxi_row; museum_row] museum_row);
    [by_evaluation | vm_compute; reflexivity | vm_compute; reflexivity | vm_compute; reflexivity].
Defined.

Lemma snapshot_shows_own_documents_witness :
  (forall t, t ∈ Synced.transactions (Synced.app (Synced.onSnapshot world_adding)) <->
     exists i d, Synced.remote world_adding !! i = Some d /\ Synced.d_userId d = "u1" /\
                 t = doc_transaction i d) /\
  NoDup (map Synced.id (Synced.transactions (Synced.app (Synced.onSnapshot world_adding)))).
Proof.
  apply (snapshot_shows_own_documents world_adding "u1"). reflexivity.
Defined.

Lemma no_write_without_user_or_fields_witness :
  Synced.handleAddTransaction env1 world_empty
  = {| Synced.remote := Synced.remote world_empty;
       Synced.app := Synced.alert "Please fill in name and price" (Synced.app world_empty) |}.
Proof.
  apply (no_write_without_user_or_fields env1 world_empty). right; left; reflexivity.
Defined.

Lemma add_reaches_only_own_snapshot_witness :
  Synced.snapshot "u1" (Synced.remote (Synced.handleAddTransaction env1 world_adding))
  ≡ₚ doc_transaction (Synced.new_doc_id env1)
       (Synced.transactionData env1 "u1" (Synced.app world_adding))
     :: Synced.snapshot "u1" (Synced.remote world_adding) /\
  (forall v, v <> "u1" ->
     Synced.snapshot v (Synced.remote (Synced.handleAddTransaction env1 world_adding))
     ≡ₚ Synced.snapshot v (Synced.remote world_adding)).
Proof.
  apply (add_reaches_only_own_snapshot env1 world_adding "u1");
    [reflexivity | reflexivity | by_evaluation | by_evaluation | vm_compute; reflexivity].
Defined.

Lemma edit_of_missing_document_witness :
  Synced.handleAddTransaction env1 world_stale_edit
  = {| Synced.remote := Synced.remote world_stale_edit;
       Synced.app := Synced.alert "Error saving transaction. Please try again."
                       (Synced.app world_stale_edit) |}.
Proof.
  apply (edit_of_missing_document env1 world_stale_edit "u1"
           (doc_transaction "doc1" lunch_doc));
    [vm_compute; reflexivity | vm_compute; reflexivity | by_evaluation | by_evaluation
    | vm_compute; reflexivity].
Defined.

Lemma synced_delete_witness :
  doc_transaction "doc1" lunch_doc
  ∈ Synced.snapshot "u1" (Synced.remote (Synced.handleDelete true "doc2" world_adding)).
Proof.
  apply (proj2 (synced_delete world_adding "u1" "doc2" (doc_transaction "doc1" lunch_doc))).
  split; [| by_evaluation].
  vm_compute. apply list_elem_of_here.
Defined.

Lemma import_writes_own_documents_witness :
  Synced.remote world_empty !! "row0"
  = Some (Synced.row_to_doc env1 "u1" (Synced.app world_empty) 0 gum_row) \/
  (Synced.d_userId (Synced.row_to_doc env1 "u1" (Synced.app world_empty) 0 gum_row) = "u1" /\
   Synced.d_date (Synced.row_to_doc env1 "u1" (Synced.app world_empty) 0 gum_row) <> "" /\
   Synced.d_name (Synced.row_to_doc env1 "u1" (Synced.app world_empty) 0 gum_row) <> "").
Proof.
  apply (import_writes_own_documents env1 world_empty "u1" [gum_row] "row0");
    [reflexivity | vm_compute; reflexivity].
Defined.


Lemma transactions_by_date_sorted_witness :
  exists l, Local.transactions_by_date getTime0 three_records = Some l /\
    l ≡ₚ Local.transactions three_records /\
    StronglySorted (fun a b => not_later getTime0 (Local.date b) (Local.date a)) l.
Proof.
  apply (transactions_by_date_sorted getTime0 three_records).
  repeat constructor; eexists; reflexivity.
Defined.

End Instances.
